(** * Verification of the withInstruction application glue

    A shallow embedding of the configuration selection
    ([buildconfig], [app.config]), the environment and iOS build scripts,
    the Sentry wrappers and the API request wrapper ([APIConfig.ts]),
    together with the properties of these that the specification states. *)

From stdpp Require Import base option list strings gmap.
From Stdlib Require Import ZArith Ascii.

#[local] Set Warnings "-register-all".
Local Open Scope string_scope.

(** ** JavaScript values

    Object literals are kept as association lists in source order.  A
    property that is written twice (a spread followed by an explicit key)
    takes its last value, so lookup reads the list from the right. *)
Module Js.

Inductive value : Type :=
| Undefined
| Null
| Bool (b : bool)
| Num (n : Z)
| Str (s : string)
| Arr (items : list value)
| Obj (fields : list (string * value)).

Fixpoint assoc_last (k : string) (fields : list (string * value)) : option value :=
  match fields with
  | [] => None
  | (k', v) :: rest =>
      match assoc_last k rest with
      | Some v' => Some v'
      | None => if String.eqb k k' then Some v else None
      end
  end.

(** [o.k] *)
Definition get (k : string) (o : value) : value :=
  match o with
  | Obj fields => default Undefined (assoc_last k fields)
  | _ => Undefined
  end.

(** [...o] inside an object literal, for the values a configuration can
    be: the own properties of an object, and nothing for [undefined],
    [null], a boolean or a number.  The spread of an array or of a string
    copies its indexed elements; a configuration is never one, the case is
    not modelled, and statements about what a spread passes on are made
    for objects only. *)
Definition spread (o : value) : list (string * value) :=
  match o with
  | Obj fields => fields
  | _ => []
  end.

End Js.

(** ** buildconfig: environment variants *)
Module BuildConfig.

Record EnvironmentConfig : Type := {
  appName : string;
  bundleIdentifier : string
}.

(** [environment] is [process.env.NODE_ENV]: a string, or [None] for
    [undefined].  The [switch] compares with [===]; ['production'] shares
    the [default] arm. *)
Definition getEnvironmentConfig (environment : option string) : EnvironmentConfig :=
  match environment with
  | Some env =>
      if String.eqb env "development" then
        {| appName := "withinstruction-dev";
           bundleIdentifier := "com.simform.withinstruction.dev" |}
      else if String.eqb env "preview" then
        {| appName := "withinstruction-preview";
           bundleIdentifier := "com.simform.withinstruction.preview" |}
      else
        {| appName := "withinstruction";
           bundleIdentifier := "com.simform.withinstruction" |}
  | None =>
      {| appName := "withinstruction";
         bundleIdentifier := "com.simform.withinstruction" |}
  end.

Definition proGuardRulesHead : string :=
  "-keep,allowobfuscation @interface com.facebook.proguard.annotations.DoNotStrip

# Do not strip any method/class that is annotated with @DoNotStrip
-keep @com.facebook.proguard.annotations.DoNotStrip class *
-keepclassmembers class * {
    @com.facebook.proguard.annotations.DoNotStrip *;
}
-keep @com.facebook.proguard.annotations.DoNotStripAny class * {
    *;
}
-keep @com.facebook.jni.annotations.DoNotStrip class *
-keepclassmembers class * {
    @com.facebook.jni.annotations.DoNotStrip *;
}
-keep @com.facebook.jni.annotations.DoNotStripAny class * {
    *;
}

-keep class * implements com.facebook.react.bridge.JavaScriptModule { *; }
-keep class * implements com.facebook.react.bridge.NativeModule { *; }
-keepclassmembers,includedescriptorclasses class * { native <methods>; }
-keepclassmembers class *  { @com.facebook.react.uimanager.annotations.ReactProp <methods>; }
-keepclassmembers class *  { @com.facebook.react.uimanager.annotations.ReactPropGroup <methods>; }

-dontwarn com.facebook.react.**
-keep,includedescriptorclasses class com.facebook.react.bridge.** { *; }
-keep,includedescriptorclasses class com.facebook.react.turbomodule.core.** { *; }
-keep,includedescriptorclasses class com.facebook.react.internal.turbomodule.core.** { *; }

# hermes
-keep class com.facebook.jni.** { *; }

# okhttp

-keepattributes Signature
-keepattributes *Annotation*
-keep class okhttp3.** { *; }
-keep interface okhttp3.** { *; }
-dontwarn okhttp3.**

# okio

#noinspection ShrinkerUnresolvedReference
-keep class sun.misc.Unsafe { *; }
-dontwarn java.nio.file.*
-dontwarn org.codehaus.mojo.animal_sniffer.IgnoreJRERequirement
-dontwarn okio.**

# yoga
-keep,allowobfuscation @interface com.facebook.yoga.annotations.DoNotStrip
-keep @com.facebook.yoga.annotations.DoNotStrip class *
-keepclassmembers class * {
    @com.facebook.yoga.annotations.DoNotStrip *;
}

# react-native-config
-keep class ".

Definition proGuardRulesTail : string :=
  ".BuildConfig { *; }".

(** The template literal of [defineProGuardRules]: the fixed rules with the
    package identifier spliced into the last [-keep] line. *)
Definition defineProGuardRules (bundleIdentifier : string) : string :=
  proGuardRulesHead +:+ bundleIdentifier +:+ proGuardRulesTail.

End BuildConfig.

(** ** app.config: the Expo configuration *)
Module AppConfig.
Import BuildConfig.

(** [defineConfig({ config })], with [process.env.NODE_ENV] as an argument.
    The result is the object literal of the source, key by key. *)
Definition defineConfig (NODE_ENV : option string) (config : Js.value) : Js.value :=
  let APP_ENV := NODE_ENV in
  let env := getEnvironmentConfig APP_ENV in
  Js.Obj (Js.spread config ++ [
    ("name", Js.Str (appName env));
    ("slug", Js.Str "withInstruction");
    ("version", Js.Str "1.0.0");
    ("orientation", Js.Str "portrait");
    ("icon", Js.Str "./app/assets/icons/appIcon.png");
    ("scheme", Js.Str "withInstruction");
    ("userInterfaceStyle", Js.Str "automatic");
    ("newArchEnabled", Js.Bool true);
    ("splash", Js.Obj [
       ("image", Js.Str "./app/assets/images/splashScreen.png");
       ("resizeMode", Js.Str "contain")]);
    ("ios", Js.Obj [
       ("bundleIdentifier", Js.Str (bundleIdentifier env));
       ("infoPlist", Js.Obj [
          ("NSCameraUsageDescription",
           Js.Str "This app requires to access your photo library")])]);
    ("android", Js.Obj [
       ("adaptiveIcon", Js.Obj [
          ("foregroundImage", Js.Str "./app/assets/icons/adaptiveIcon.png");
          ("backgroundColor", Js.Str "#ffffff")]);
       ("package", Js.Str (bundleIdentifier env));
       ("permissions", Js.Arr [Js.Str "CAMERA"])]);
    ("web", Js.Obj [
       ("bundler", Js.Str "metro");
       ("output", Js.Str "static")]);
    ("plugins", Js.Arr [
       Js.Str "expo-localization";
       Js.Str "expo-asset";
       Js.Str "expo-font";
       Js.Str "expo-router";
       Js.Arr [
         Js.Str "expo-build-properties";
         Js.Obj [
           ("android", Js.Obj [
              ("minSdkVersion", Js.Num 30%Z);
              ("enableProguardInReleaseBuilds", Js.Bool true);
              ("extraProguardRules",
               Js.Str (defineProGuardRules (bundleIdentifier env)))]);
           ("ios", Js.Obj [("deploymentTarget", Js.Str "16.0")])]];
       Js.Arr [
         Js.Str "react-native-permissions";
         Js.Obj [("iosPermissions", Js.Arr [Js.Str "Camera"])]];
       Js.Arr [Js.Str "./withCustomSigning"]]);
    ("experiments", Js.Obj [("typedRoutes", Js.Bool true)]);
    ("extra", Js.Obj [])
  ]).

End AppConfig.

(** ** The build scripts *)

(** Positional parameters of a shell script: [$1] is the head of the list,
    and a parameter that was not passed expands to the empty string. *)
Module Sh.

Definition positional (n : nat) (args : list string) : string :=
  default EmptyString (args !! n).

(** [${n:-word}]: [word] when the parameter is unset or empty. *)
Definition positional_or (n : nat) (word : string) (args : list string) : string :=
  let v := positional n args in
  if String.eqb v EmptyString then word else v.

End Sh.

(** *** The environment script

    The working directory is a finite map from the names of its regular
    files to their contents; directories and permissions are not part of
    the model.  A run returns the exit status, the files it leaves, and the
    lines it printed. *)
Module CopyEnv.

Record Run : Type := {
  status : nat;
  files : gmap string string;
  stdout : list string
}.

(** [touch f] for a file that does not exist. *)
Definition touch (f : string) (fs : gmap string string) : gmap string string :=
  match fs !! f with
  | Some _ => fs
  | None => <[f := EmptyString]> fs
  end.

(** [cp src dst]: [dst] receives the content of [src]; with no [src], [cp]
    fails and leaves the files alone.  The script does not run under
    [set -e], so it goes on either way. *)
Definition cp (src dst : string) (fs : gmap string string) : gmap string string :=
  match fs !! src with
  | Some content => <[dst := content]> fs
  | None => fs
  end.

Definition env_file_of (arg : string) : option string :=
  if String.eqb arg "prod" then Some ".env.production"
  else if String.eqb arg "preview" then Some ".env.preview"
  else if String.eqb arg "dev" then Some ".env.development"
  else None.

Definition copy_env (args : list string) (fs : gmap string string) : Run :=
  let arg := Sh.positional 0 args in
  let '(fs1, out1) :=
    match fs !! ".env" with
    | None => (touch ".env" fs, [".env file does not exist. Creating .env file..."])
    | Some _ => (fs, [])
    end in
  match env_file_of arg with
  | Some src =>
      {| status := 0;
         files := cp src ".env" fs1;
         stdout := out1 ++
           [".env file has been updated with " +:+ arg +:+ " environment variables."] |}
  | None =>
      {| status := 1;
         files := fs1;
         stdout := out1 ++
           ["Invalid environment specified. Please use 'production', 'preview', or 'development'."] |}
  end.

End CopyEnv.

(** *** The iOS build script

    The model covers the parameter handling at the head of the script
    (its lines 8 to 41) and the words of the [xcodebuild] command lines it
    builds from the result.  The steps between them (dependency check,
    cache cleaning, Podfile patching, pod install, generation of the
    export options) run external tools on the host and are not part of
    the model: the script runs under [set -e], and any of them can still
    stop a run that has passed the parameter handling. *)
Module IosBuild.

Record Params : Type := {
  ENVIRONMENT : string;
  TEAM_ID : string;
  ALLOW_EXPORT : string;
  PROJECT_NAME : string;
  SCHEME_NAME : string;
  ARCHIVE_PATH : string;
  EXPORT_PATH : string;
  EXPORT_OPTIONS_PLIST : string
}.

Definition PROJECT_BASE_NAME : string := "withinstruction".

(** Lines 8 to 41 of the script, and no more: [inl] is the exit status
    of a run that stops in these lines, [inr] the variables as they stand
    after line 41 in a run that has not.  [inr] does not say that the run
    reaches [pod] or [xcodebuild]: the check of the React Native
    installation, [cd ios] and [cp Podfile] come first and can fail. *)
Definition resolve (args : list string) : nat + Params :=
  let environment := Sh.positional_or 0 "Production" args in
  let team_id := Sh.positional 1 args in
  let allow_export := Sh.positional_or 2 "false" args in
  if String.eqb team_id EmptyString then inl 1%nat
  else if String.eqb environment EmptyString then inl 1%nat
  else
    let '(environment, allow_export) :=
      if String.eqb environment "Production"
      then (EmptyString, "false")
      else (environment, allow_export) in
    let project_name := PROJECT_BASE_NAME +:+ environment in
    inr {| ENVIRONMENT := environment;
           TEAM_ID := team_id;
           ALLOW_EXPORT := allow_export;
           PROJECT_NAME := project_name;
           SCHEME_NAME := PROJECT_BASE_NAME +:+ environment;
           ARCHIVE_PATH := "./ios/build/" +:+ project_name +:+ ".xcarchive";
           EXPORT_PATH := "./ios/build";
           EXPORT_OPTIONS_PLIST := "./ios/ExportOptions.plist" |}.

(** The condition of step 5, which prepares [ExportOptions.plist]: it
    is entered only for [ALLOW_EXPORT = "true"]. *)
Definition prepares_export_options (p : Params) : bool :=
  String.eqb (ALLOW_EXPORT p) "true".

(** Step 6, the words of the archive command. *)
Definition xcodebuild_archive (p : Params) : list string :=
  [ "xcodebuild"; "archive";
    "-workspace"; PROJECT_NAME p +:+ ".xcworkspace";
    "-scheme"; SCHEME_NAME p;
    "-destination"; "generic/platform=iOS";
    "-archivePath"; ARCHIVE_PATH p;
    "-configuration"; "Release";
    "CODE_SIGN_STYLE=Automatic";
    "DEVELOPMENT_TEAM=" +:+ TEAM_ID p;
    "ARCHS=arm64";
    "-allowProvisioningUpdates" ].

(** The words of the export command.  The script runs it after the
    archive whenever the export options file exists, whatever
    [ALLOW_EXPORT] is. *)
Definition xcodebuild_export (p : Params) : list string :=
  [ "xcodebuild"; "-exportArchive";
    "-archivePath"; ARCHIVE_PATH p;
    "-exportPath"; EXPORT_PATH p;
    "-exportOptionsPlist"; EXPORT_OPTIONS_PLIST p ].

End IosBuild.

(** ** Strings.ts: the API error messages

    The values come from the translation tables, which are loaded at run
    time; the record is a parameter of everything below. *)
Module Strings.

Record APIError : Type := {
  somethingWentWrong : string;
  networkError : string;
  serverError : string;
  timeoutError : string;
  clientError : string;
  cancelError : string;
  connectionError : string;
  unexpectedError : string;
  cancelSagaError : string;
  error : string
}.

End Strings.

(** ** AppEnvConst.ts *)
Module AppEnvConst.

Record t : Type := {
  mobile : string;
  isDevelopment : bool;
  environment : string;
  sentryUrl : string;
  apiUrl : string
}.

(** The frozen object, from the bundler flag [__DEV__] and the three
    [process.env] entries ([None] for an unset variable). *)
Definition make (DEV : bool)
    (EXPO_PUBLIC_ENVIRONMENT EXPO_PUBLIC_SENTRY_URL EXPO_PUBLIC_API_URL : option string) : t :=
  {| mobile := "Mobile";
     isDevelopment :=
       DEV || String.eqb (default "development" EXPO_PUBLIC_ENVIRONMENT) "development";
     environment := default "development" EXPO_PUBLIC_ENVIRONMENT;
     sentryUrl := default EmptyString EXPO_PUBLIC_SENTRY_URL;
     apiUrl := default EmptyString EXPO_PUBLIC_API_URL |}.

End AppEnvConst.

(** ** The HTTP client: axios and apisauce

    Only the shapes the wrapper reads or writes are given: the request
    settings, error objects, thrown values, and the response envelope. *)
Module Axios.

(** [Record<string, any>] *)
Definition Dict : Type := list (string * Js.value).

(** [AxiosRequestConfig]: the three fields the wrapper touches, and the
    remaining ones as a dictionary that is carried along. *)
Record AxiosRequestConfig : Type := {
  headers : option Dict;
  params : option Dict;
  cancelToken : option nat;
  rest : Dict
}.

Definition emptyConfig : AxiosRequestConfig :=
  {| headers := None; params := None; cancelToken := None; rest := [] |}.

(** An instance of [Error]; [isAxiosError] is what [axios.isAxiosError]
    tests. *)
Record ErrorObject : Type := {
  name : string;
  message : string;
  isAxiosError : bool
}.

(** A value of type [unknown], as far as the code tells such values apart:
    by [typeof error === 'string'], [error instanceof Error] and
    [axios.isAxiosError(error)]. *)
Inductive unknown : Type :=
| IsUndefined
| IsString (s : string)
| IsError (e : ErrorObject)
| IsOther.

(** [CancelToken.source()] hands out a source whose token is new. *)
Record CancelTokenSource : Type := { token : nat }.

End Axios.

Module Apisauce.
Import Axios.

Definition CLIENT_ERROR : string := "CLIENT_ERROR".
Definition SERVER_ERROR : string := "SERVER_ERROR".
Definition TIMEOUT_ERROR : string := "TIMEOUT_ERROR".
Definition CONNECTION_ERROR : string := "CONNECTION_ERROR".
Definition NETWORK_ERROR : string := "NETWORK_ERROR".
Definition UNKNOWN_ERROR : string := "UNKNOWN_ERROR".
Definition CANCEL_ERROR : string := "CANCEL_ERROR".

(** [ApiResponse<R>], the union of the ok and the error response: a field
    that is absent or [null] is [None]. *)
Record ApiResponse (R : Type) : Type := {
  ok : bool;
  problem : option string;
  originalError : option ErrorObject;
  data : option R;
  status : option Z;
  headers : option Dict;
  config : option AxiosRequestConfig;
  duration : option Z
}.
Arguments ok {R} _.
Arguments problem {R} _.
Arguments originalError {R} _.
Arguments data {R} _.
Arguments status {R} _.
Arguments headers {R} _.
Arguments config {R} _.
Arguments duration {R} _.

(** An instance, as [create] builds it from its configuration.  [verbs]
    are the names under which the instance has a request function. *)
Record ApisauceInstance : Type := {
  baseURL : string;
  timeout : Z;
  instanceHeaders : Dict;
  verbs : list string
}.

(** The request functions of an instance made by [create]. *)
Definition request_verbs : list string :=
  ["get"; "delete"; "head"; "post"; "put"; "patch"; "link"; "unlink"].

Definition create (baseURL : string) (timeout : Z) (headers : Dict) : ApisauceInstance :=
  {| baseURL := baseURL; timeout := timeout;
     instanceHeaders := headers; verbs := request_verbs |}.

(** One call of a request function: [api[verb](url, payload, settings)]. *)
Record Request : Type := {
  verb : string;
  url : string;
  payload : Js.value;
  settings : AxiosRequestConfig
}.

End Apisauce.

(** ** Effects

    What a run of the wrapper does to the outside is recorded in a
    [World]: the cancel tokens handed out and their reasons, the listeners
    on the thunk's abort signal, the calls of the request functions of the
    API instance ([requests]; whether the HTTP client then puts anything
    on the network is its own business), and what was given to the Sentry
    SDK.  [captureAPICalls] is a ghost trace of
    the calls of [sentryCaptureAPIException]; no code reads it. *)
Module Effects.
Import Axios Apisauce.

(** The one listener the wrapper installs: [() => source.cancel(reason)]. *)
Record AbortListener : Type := {
  cancels : CancelTokenSource;
  reason : string
}.

(** A computation either returns or throws. *)
Inductive Completion (A : Type) : Type :=
| Returns (a : A)
| Throws (e : unknown).
Arguments Returns {A} _.
Arguments Throws {A} _.

Section World.
Context {R : Type}.

Record Extra : Type := {
  extra_endpoint : option string;
  extra_response : option (ApiResponse R);
  extra_errorMessage : string;
  extra_status : option Z;
  extra_ErrorResponse : option R
}.

Inductive SentryCall : Type :=
| CaptureException (name message : string) (extra : Extra)
| CaptureMessage (eventName : string) (Request Error : string)
| CaptureError (e : ErrorObject)
| SetUser (id : string) (displayName realName email phone : option string).

Record APICapture : Type := {
  capture_endpoint : option string;
  capture_response : option (ApiResponse R);
  capture_error : unknown
}.

Record World : Type := {
  nextToken : nat;
  cancelReasons : gmap nat string;
  abortListeners : list AbortListener;
  requests : list Request;
  captureAPICalls : list APICapture;
  sentry : list SentryCall
}.

Definition initial : World :=
  {| nextToken := 0; cancelReasons := ∅; abortListeners := [];
     requests := []; captureAPICalls := []; sentry := [] |}.

(** A computation changes the world on the way; what it did before
    throwing stays done. *)
Definition M (A : Type) : Type := World -> Completion A * World.

Definition ret {A} (a : A) : M A := fun w => (Returns a, w).

Definition throw {A} (e : unknown) : M A := fun w => (Throws e, w).

Definition bind {A B} (m : M A) (k : A -> M B) : M B :=
  fun w =>
    match m w with
    | (Returns a, w') => k a w'
    | (Throws e, w') => (Throws e, w')
    end.

Definition try_catch {A} (body : M A) (handler : unknown -> M A) : M A :=
  fun w =>
    match body w with
    | (Returns a, w') => (Returns a, w')
    | (Throws e, w') => handler e w'
    end.

Definition modify (f : World -> World) : M unit := fun w => (Returns tt, f w).

End World.

Arguments Extra : clear implicits.
Arguments SentryCall : clear implicits.
Arguments APICapture : clear implicits.
Arguments World : clear implicits.
Arguments M : clear implicits.

#[global] Instance M_ret {R} : MRet (M R) := fun A => @ret R A.
#[global] Instance M_bind {R} : MBind (M R) := fun A B k m => @bind R A B m k.

End Effects.

(** ** SentryConfig: the crash-reporting wrappers

    [sentry] records what the wrappers hand to the SDK
    ([Sentry.captureException], [Sentry.captureMessage], [Sentry.setUser]);
    what the SDK then does with an event is outside the model. *)
Module SentryConfig.
Import Axios Apisauce Effects.

Record UserResponse : Type := {
  id : option string;
  email : option string;
  phone : option string;
  displayName : option string;
  photoURL : option string;
  userMessage : option string
}.

Section Sentry.
Context {R : Type}.
Variable AppEnv : AppEnvConst.t.
Variable APIError : Strings.APIError.
(** [JSON.stringify] *)
Variable stringify : Js.value -> string.

Definition log_capture (c : APICapture R) (w : World R) : World R :=
  {| nextToken := nextToken w; cancelReasons := cancelReasons w;
     abortListeners := abortListeners w; requests := requests w;
     captureAPICalls := captureAPICalls w ++ [c]; sentry := sentry w |}.

Definition log_sentry (c : SentryCall R) (w : World R) : World R :=
  {| nextToken := nextToken w; cancelReasons := cancelReasons w;
     abortListeners := abortListeners w; requests := requests w;
     captureAPICalls := captureAPICalls w; sentry := sentry w ++ [c] |}.

(** The message of the custom error: the value itself when it is a string,
    its [message] when it is an [Error], the fixed text otherwise. *)
Definition errorMessageOf (error : unknown) : string :=
  match error with
  | IsString s => s
  | IsError e => message e
  | IsUndefined | IsOther => Strings.unexpectedError APIError
  end.

(** [endpoint ? `${error}: ${endpoint}` : error]; an empty endpoint is
    falsy. *)
Definition customErrorName (endpoint : option string) : string :=
  match endpoint with
  | Some e =>
      if String.eqb e EmptyString then Strings.error APIError
      else Strings.error APIError +:+ ": " +:+ e
  | None => Strings.error APIError
  end.

(** The call [Sentry.captureException(customError, { extra })]. *)
Definition reported (endpoint : option string) (response : option (ApiResponse R))
    (error : unknown) : SentryCall R :=
  let errorMessage := errorMessageOf error in
  CaptureException (customErrorName endpoint) errorMessage
    {| extra_endpoint := endpoint;
       extra_response := response;
       extra_errorMessage := errorMessage;
       extra_status := response ≫= status;
       extra_ErrorResponse := response ≫= data |}.

Definition sentryCaptureAPIException (endpoint : option string)
    (response : option (ApiResponse R)) (error : unknown) : M R unit :=
  modify (log_capture {| capture_endpoint := endpoint;
                         capture_response := response;
                         capture_error := error |});;
  if negb (AppEnvConst.isDevelopment AppEnv) then
    modify (log_sentry (reported endpoint response error))
  else mret tt.

(** The world after a call of [sentryCaptureAPIException]: the call is on
    the trace, and outside development mode Sentry has the exception. *)
Definition captured (endpoint : option string) (response : option (ApiResponse R))
    (error : unknown) (w w' : World R) : Prop :=
  captureAPICalls w' =
    (captureAPICalls w ++ [{| capture_endpoint := endpoint; capture_response := response;
                              capture_error := error |}])%list /\
  sentry w' =
    (if AppEnvConst.isDevelopment AppEnv then sentry w
     else (sentry w ++ [reported endpoint response error])%list) /\
  requests w' = requests w.

Definition sentryCaptureMessage (eventName : string)
    (request error : option Js.value) : M R unit :=
  if negb (AppEnvConst.isDevelopment AppEnv) then
    modify (log_sentry
      (CaptureMessage eventName
         (stringify (default (Js.Obj []) request))
         (stringify (default (Js.Obj []) error))))
  else mret tt.

Definition sentryCaptureException (error : ErrorObject) : M R unit :=
  if negb (AppEnvConst.isDevelopment AppEnv) then modify (log_sentry (CaptureError error))
  else mret tt.

(** [String(user.id)] of an absent id is the text [undefined]. *)
Definition loginSentry (user : UserResponse) : M R unit :=
  modify (log_sentry
    (SetUser (default "undefined" (id user)) (displayName user)
       (displayName user) (email user) (phone user))).

End Sentry.
End SentryConfig.

(** ** APIConfig.ts: the request wrapper *)
Module APIConfig.
Import Axios Apisauce Effects.

(** [ResponseBound]: a response body may carry a [message]. *)
Class ResponseBound (R : Type) : Type := bodyMessage : R -> option string.

Record ThunkArg : Type := {
  data : Js.value;
  params : option Dict;
  setting : option AxiosRequestConfig;
  paths : option Dict;
  shouldShowToast : option bool
}.

(** [UserResponse] has the optional [message] the bound asks for. *)
#[global] Instance UserResponse_bound : ResponseBound SentryConfig.UserResponse :=
  SentryConfig.userMessage.

(** [payload ?? {}] *)
Definition noArg : ThunkArg :=
  {| data := Js.Undefined; params := None; setting := None;
     paths := None; shouldShowToast := None |}.

Definition lower (c : ascii) : ascii :=
  let n := nat_of_ascii c in
  if (65 <=? n)%nat && (n <=? 90)%nat then ascii_of_nat (n + 32) else c.

(** [String.prototype.toLowerCase], on the ASCII letters of a method name. *)
Fixpoint toLowerCase (s : string) : string :=
  match s with
  | EmptyString => EmptyString
  | String c rest => String (lower c) (toLowerCase rest)
  end.

Definition apiConfig (baseURL : string) : ApisauceInstance :=
  create baseURL 120000
    [("Cache-Control", Js.Str "no-cache"); ("Content-Type", Js.Str "application/json")].

Definition authorizedAPI (AppEnv : AppEnvConst.t) : ApisauceInstance :=
  apiConfig (AppEnvConst.apiUrl AppEnv).

Definition unauthorizedAPI (AppEnv : AppEnvConst.t) : ApisauceInstance :=
  apiConfig (AppEnvConst.apiUrl AppEnv).

(** [_.isEmpty(paths)] *)
Definition isEmpty (paths : option Dict) : bool :=
  match paths with
  | None | Some [] => true
  | Some (_ :: _) => false
  end.

(** What the payload creator of a thunk comes to. *)
Inductive ThunkResult (R ErrorResponse : Type) : Type :=
| Fulfilled (value : option R)
| Rejected (rejectValue : ErrorResponse).
Arguments Fulfilled {R ErrorResponse} _.
Arguments Rejected {R ErrorResponse} _.

(** How the awaited request promise settles. *)
Inductive Settlement (R : Type) : Type :=
| Resolves (response : ApiResponse R)
| RejectsWith (error : unknown).
Arguments Resolves {R} _.
Arguments RejectsWith {R} _.

Section Wrapper.
Context {R : Type} `{!ResponseBound R}.
Context {ErrorResponse : Type}.
Variable AppEnv : AppEnvConst.t.
Variable APIError : Strings.APIError.
(** From [CommonUtils] and [APIConfigTypes]. *)
Variable getErrorResponse : string -> ErrorResponse.
Variable formatString : string -> Dict -> string.
Variable USER_CANCELLED_REQUEST : string.

Definition log_request (r : Request) (w : World R) : World R :=
  {| nextToken := nextToken w; cancelReasons := cancelReasons w;
     abortListeners := abortListeners w; requests := requests w ++ [r];
     captureAPICalls := captureAPICalls w; sentry := sentry w |}.

(** [CancelToken.source()] *)
Definition CancelToken_source : M R CancelTokenSource :=
  fun w =>
    (Returns {| token := nextToken w |},
     {| nextToken := S (nextToken w); cancelReasons := cancelReasons w;
        abortListeners := abortListeners w; requests := requests w;
        captureAPICalls := captureAPICalls w; sentry := sentry w |}).

(** [source.cancel(reason)]: a token keeps the first reason it is given. *)
Definition cancel (source : CancelTokenSource) (reason : string) (w : World R) : World R :=
  match cancelReasons w !! token source with
  | Some _ => w
  | None =>
      {| nextToken := nextToken w;
         cancelReasons := <[token source := reason]> (cancelReasons w);
         abortListeners := abortListeners w; requests := requests w;
         captureAPICalls := captureAPICalls w; sentry := sentry w |}
  end.

(** [thunkApi.signal.addEventListener('abort', listener)] *)
Definition addAbortListener (l : AbortListener) : M R unit :=
  modify (fun w =>
    {| nextToken := nextToken w; cancelReasons := cancelReasons w;
       abortListeners := abortListeners w ++ [l]; requests := requests w;
       captureAPICalls := captureAPICalls w; sentry := sentry w |}).

(** The signal fires: every listener runs, in the order of registration. *)
Definition fireAbort (w : World R) : World R :=
  foldl (fun w l => cancel (cancels l) (reason l) w) w (abortListeners w).

(** The settings of the request: the caller's, with a fresh copy of its
    headers, the query parameters for a request without body, and the
    token of [source] in [cancelToken]. *)
Definition requestSettings (hasData : bool) (params : option Dict)
    (setting : option AxiosRequestConfig) (source : CancelTokenSource) : AxiosRequestConfig :=
  let base := default emptyConfig setting in
  {| Axios.headers := Some (default [] (setting ≫= Axios.headers));
     Axios.params :=
       if negb hasData && bool_decide (is_Some params) then params else Axios.params base;
     cancelToken := Some (token source);
     rest := rest base |}.

(** What calling a property that is not a function throws. *)
Definition notAFunction : unknown :=
  IsError {| name := "TypeError"; message := "api[httpMethod] is not a function";
             isAxiosError := false |}.

(** The call [api[httpMethod](...)] is a call of nothing when the instance
    has no function of that name: a [TypeError], and no request. *)
Definition apiWithCancelToken (api : ApisauceInstance) (method url : string)
    (params : option Dict) (data : Js.value) (setting : option AxiosRequestConfig)
    (paths : option Dict) (source : CancelTokenSource) : M R unit :=
  let httpMethod := toLowerCase method in
  let hasData := bool_decide (httpMethod ∈ ["post"; "put"; "patch"]) in
  let settings := requestSettings hasData params setting source in
  let finalUrl := if isEmpty paths then url else formatString url (default [] paths) in
  if bool_decide (httpMethod ∈ verbs api) then
    modify (log_request
      {| verb := httpMethod; Apisauce.url := finalUrl;
         payload := if hasData then data else Js.Obj (default [] params);
         settings := settings |})
  else throw notAFunction.

Definition handleClientError (response : ApiResponse R) (defaultMessage : string) : ErrorResponse :=
  let messages := default defaultMessage (Apisauce.data response ≫= bodyMessage) in
  getErrorResponse messages.

Definition handleError (response : ApiResponse R) (shouldShowToast : bool) : ErrorResponse :=
  match problem response with
  | Some p =>
      if String.eqb p CLIENT_ERROR then
        handleClientError response (Strings.clientError APIError)
      else if String.eqb p SERVER_ERROR then
        handleClientError response (Strings.serverError APIError)
      else if String.eqb p TIMEOUT_ERROR then
        handleClientError response (Strings.timeoutError APIError)
      else if String.eqb p CONNECTION_ERROR then
        handleClientError response (Strings.connectionError APIError)
      else if String.eqb p NETWORK_ERROR then
        handleClientError response (Strings.networkError APIError)
      else if String.eqb p CANCEL_ERROR then
        handleClientError response (Strings.cancelError APIError)
      else
        handleClientError response (Strings.somethingWentWrong APIError)
  | None => handleClientError response (Strings.somethingWentWrong APIError)
  end.

Definition handleCatchError (error : unknown) : ErrorResponse :=
  match error with
  | IsError e =>
      if isAxiosError e then getErrorResponse (message e)
      else getErrorResponse (Strings.unexpectedError APIError)
  | _ => getErrorResponse (Strings.unexpectedError APIError)
  end.

(** [_.cloneDeep(response)] without its [config] and [headers]. *)
Definition responseClone (response : ApiResponse R) : ApiResponse R :=
  {| ok := ok response; problem := problem response;
     originalError := originalError response; Apisauce.data := Apisauce.data response;
     status := status response; Apisauce.headers := None; config := None;
     duration := duration response |}.

(** [response?.data?.message], as a value of type [unknown]. *)
Definition bodyError (response : ApiResponse R) : unknown :=
  match Apisauce.data response ≫= bodyMessage with
  | Some m => IsString m
  | None => IsUndefined
  end.

Definition processResponseAndCaptureInfo (response : ApiResponse R) (url : string) : M R unit :=
  if bool_decide (message <$> originalError response = Some USER_CANCELLED_REQUEST)
  then mret tt
  else SentryConfig.sentryCaptureAPIException AppEnv APIError
         (Some url) (Some (responseClone response)) (bodyError response).

(** *** The thunk

    The payload creator has one [await].  [payloadCreator_begin] is the
    code up to it, [payloadCreator_resume] the code that runs once the
    request promise has settled; both are inside the [try], and [onCatch]
    is the [catch] clause. *)
Definition onCatch (url : string) (error : unknown) : M R (ThunkResult R ErrorResponse) :=
  SentryConfig.sentryCaptureAPIException AppEnv APIError (Some url) None error;;
  mret (Rejected (handleCatchError error)).

Inductive Progress : Type :=
| AtAwait (shouldShowToast : bool)
| Finished (result : ThunkResult R ErrorResponse).

Definition payloadCreator_begin (api : ApisauceInstance) (method url : string)
    (payload : option ThunkArg) : M R Progress :=
  let arg := default noArg payload in
  let toast := default true (shouldShowToast arg) in
  source ← CancelToken_source;
  addAbortListener {| cancels := source; reason := USER_CANCELLED_REQUEST |};;
  try_catch
    (apiWithCancelToken api method url (params arg) (data arg) (setting arg) (paths arg) source;;
     mret (AtAwait toast))
    (fun error => result ← onCatch url error; mret (Finished result)).

Definition payloadCreator_resume (url : string) (toast : bool)
    (settled : Settlement R) : M R (ThunkResult R ErrorResponse) :=
  try_catch
    (match settled with
     | Resolves response =>
         if ok response then mret (Fulfilled (Apisauce.data response))
         else
           processResponseAndCaptureInfo response url;;
           mret (Rejected (handleError response toast))
     | RejectsWith error => throw error
     end)
    (onCatch url).

Record AsyncThunk : Type := {
  typePrefix : string;
  thunkMethod : string;
  thunkUrl : string;
  thunkApi : ApisauceInstance
}.

(** [api] defaults to [authorizedAPI]. *)
Definition createAsyncThunkWithCancelToken (typePrefix method url : string)
    (api : option ApisauceInstance) : AsyncThunk :=
  {| typePrefix := typePrefix; thunkMethod := method; thunkUrl := url;
     thunkApi := default (authorizedAPI AppEnv) api |}.

(** One run of the payload creator of a thunk, driven from outside: it
    is started with a payload, the abort signal of the thunk may fire, and
    the request promise settles.  [Phase] is where the payload creator
    stands, and [Done] holds what it returned or threw.  What the
    dispatched thunk reports is decided by [createAsyncThunk] of Redux
    Toolkit, which is not part of the model: it takes the payload
    creator's result, except that a thunk whose signal was aborted before
    the payload creator finished is rejected by the toolkit itself, and
    the payload creator's later result is dropped. *)
Inductive Phase : Type :=
| Idle
| InFlight (shouldShowToast : bool)
| Done (outcome : Completion (ThunkResult R ErrorResponse)).

Record Execution : Type := {
  phase : Phase;
  world : World R
}.

Inductive Event : Type :=
| Start (payload : option ThunkArg)
| Abort
| Settle (settled : Settlement R).

Definition step (t : AsyncThunk) (x : Execution) (e : Event) : Execution :=
  match e, phase x with
  | Start payload, Idle =>
      match payloadCreator_begin (thunkApi t) (thunkMethod t) (thunkUrl t) payload (world x) with
      | (Returns (AtAwait toast), w) => {| phase := InFlight toast; world := w |}
      | (Returns (Finished r), w) => {| phase := Done (Returns r); world := w |}
      | (Throws err, w) => {| phase := Done (Throws err); world := w |}
      end
  | Settle settled, InFlight toast =>
      match payloadCreator_resume (thunkUrl t) toast settled (world x) with
      | (outcome, w) => {| phase := Done outcome; world := w |}
      end
  | Abort, _ => {| phase := phase x; world := fireAbort (world x) |}
  | _, _ => x
  end.

Definition execute (t : AsyncThunk) (x : Execution) (events : list Event) : Execution :=
  foldl (step t) x events.

Definition fresh : Execution := {| phase := Idle; world := initial |}.

End Wrapper.
End APIConfig.

(** ** The lookup table of the specification

    The specification describes error handling as a table from the problem
    code of the HTTP client to a message of [Strings.APIError].  This is
    that table, written from the specification's words, to compare
    [handleError] with. *)
Module ErrorTable.
Import Apisauce.

Definition localizedMessage (APIError : Strings.APIError) (problem : option string) : string :=
  match problem with
  | Some p =>
      if String.eqb p CLIENT_ERROR then Strings.clientError APIError
      else if String.eqb p SERVER_ERROR then Strings.serverError APIError
      else if String.eqb p TIMEOUT_ERROR then Strings.timeoutError APIError
      else if String.eqb p CONNECTION_ERROR then Strings.connectionError APIError
      else if String.eqb p NETWORK_ERROR then Strings.networkError APIError
      else if String.eqb p CANCEL_ERROR then Strings.cancelError APIError
      else Strings.somethingWentWrong APIError
  | None => Strings.somethingWentWrong APIError
  end.

End ErrorTable.

(** ** Concrete inputs

    Stand-ins for what the repository keeps elsewhere (the translated
    texts, the shape of [ErrorResponse], the value of
    [USER_CANCELLED_REQUEST]) and a few responses, for the examples below. *)
Module Samples.
Import Axios Apisauce.

Definition APIError : Strings.APIError :=
  {| Strings.somethingWentWrong := "Something went wrong";
     Strings.networkError := "Network not available";
     Strings.serverError := "Server error";
     Strings.timeoutError := "Request timed out";
     Strings.clientError := "Client error";
     Strings.cancelError := "Request cancelled";
     Strings.connectionError := "Server not available";
     Strings.unexpectedError := "Unexpected error";
     Strings.cancelSagaError := "Saga cancelled";
     Strings.error := "Error" |}.

Definition production : AppEnvConst.t :=
  AppEnvConst.make false (Some "production")
    (Some "https://sentry.example/1") (Some "https://api.example").

Definition development : AppEnvConst.t :=
  AppEnvConst.make true None None None.

Definition USER_CANCELLED_REQUEST : string := "USER_CANCELLED_REQUEST".

(** An [ErrorResponse] that is its message. *)
Definition getErrorResponse (message : string) : string := message.

Definition formatString (url : string) (paths : Dict) : string := url.

Definition stringify (v : Js.value) : string := "{}".

Definition signInRefused : ApiResponse SentryConfig.UserResponse :=
  {| ok := false;
     problem := Some CLIENT_ERROR;
     originalError := Some {| name := "AxiosError";
                              message := "Request failed with status code 401";
                              isAxiosError := true |};
     data := Some {| SentryConfig.id := None; SentryConfig.email := None;
                     SentryConfig.phone := None; SentryConfig.displayName := None;
                     SentryConfig.photoURL := None;
                     SentryConfig.userMessage := Some "Invalid email or password" |};
     status := Some 401%Z;
     Apisauce.headers := Some [("content-type", Js.Str "application/json")];
     config := Some emptyConfig;
     duration := Some 120%Z |}.

Definition serverDown : ApiResponse SentryConfig.UserResponse :=
  {| ok := false;
     problem := Some SERVER_ERROR;
     originalError := Some {| name := "AxiosError";
                              message := "Request failed with status code 503";
                              isAxiosError := true |};
     data := None;
     status := Some 503%Z;
     Apisauce.headers := None;
     config := Some emptyConfig;
     duration := Some 35%Z |}.

Definition userCancelled : ApiResponse SentryConfig.UserResponse :=
  {| ok := false;
     problem := Some CANCEL_ERROR;
     originalError := Some {| name := "CanceledError";
                              message := USER_CANCELLED_REQUEST;
                              isAxiosError := true |};
     data := None;
     status := None;
     Apisauce.headers := None;
     config := None;
     duration := Some 12%Z |}.

End Samples.

(** ** Vocabulary for executions

    The states an execution of a thunk goes through, named for the
    statements below. *)
Module ThunkInvariant.
Import Axios Apisauce Effects APIConfig.

Section Invariant.
Context {R : Type} {ErrorResponse : Type}.
Variable formatString : string -> Dict -> string.
Variable USER_CANCELLED_REQUEST : string.

(** The world once the source exists and its listener is installed. *)
Definition hooked (w : World R) : World R :=
  {| nextToken := S (nextToken w); cancelReasons := cancelReasons w;
     abortListeners :=
       abortListeners w ++ [{| cancels := {| token := nextToken w |};
                               reason := USER_CANCELLED_REQUEST |}];
     requests := requests w; captureAPICalls := captureAPICalls w;
     sentry := sentry w |}.

(** The request [apiWithCancelToken] makes for a payload and a source. *)
Definition requestOf (api : ApisauceInstance) (method url : string)
    (arg : ThunkArg) (source : CancelTokenSource) : Request :=
  let httpMethod := toLowerCase method in
  let hasData := bool_decide (httpMethod ∈ ["post"; "put"; "patch"]) in
  {| verb := httpMethod;
     Apisauce.url := if isEmpty (paths arg) then url
                     else formatString url (default [] (paths arg));
     payload := if hasData then data arg else Js.Obj (default [] (params arg));
     settings := requestSettings hasData (params arg) (setting arg) source |}.

(** Two worlds that differ at most in what was captured. *)
Definition same_wiring (w w' : World R) : Prop :=
  nextToken w' = nextToken w /\
  cancelReasons w' = cancelReasons w /\
  abortListeners w' = abortListeners w /\
  requests w' = requests w.

(** The source of an execution that starts in the initial world. *)
Definition source0 : CancelTokenSource := {| token := 0 |}.

(** After the start there is one source, one listener that cancels it,
    the token has at most this reason, and a request carries this token. *)
Definition wired (w : World R) : Prop :=
  nextToken w = 1 /\
  abortListeners w = [{| cancels := source0; reason := USER_CANCELLED_REQUEST |}] /\
  (forall k r, cancelReasons w !! k = Some r -> k = 0 /\ r = USER_CANCELLED_REQUEST) /\
  (forall q, q ∈ requests w -> cancelToken (settings q) = Some 0) /\
  length (requests w) <= 1.

(** The API instance of the thunk has a request function for its method. *)
Definition supported (t : AsyncThunk) : Prop :=
  toLowerCase (thunkMethod t) ∈ verbs (thunkApi t).

Definition inv (t : AsyncThunk)
    (x : Execution (R := R) (ErrorResponse := ErrorResponse)) : Prop :=
  match phase x with
  | Idle => world x = initial
  | InFlight _ => wired (world x) /\ length (requests (world x)) = 1
  | Done _ => wired (world x) /\ (supported t -> length (requests (world x)) = 1)
  end.

End Invariant.
End ThunkInvariant.

(** ** JavaScript strings

    The string methods the code calls, on strings as sequences of
    characters. *)
Module JsString.

(** [haystack.includes(needle)] *)
Fixpoint includes (needle haystack : string) : bool :=
  String.prefix needle haystack ||
  match haystack with
  | EmptyString => false
  | String _ rest => includes needle rest
  end.

(** [s.split(sep)] for a separator that is not empty: the pieces between
    the occurrences of [sep], found from the left and not overlapping.
    [skip] counts the characters of an occurrence still to pass, [cur] is
    the piece being read. *)
Fixpoint split_aux (sep : string) (skip : nat) (cur s : string) : list string :=
  match s with
  | EmptyString => [cur]
  | String c rest =>
      match skip with
      | S k => split_aux sep k cur rest
      | O =>
          if String.prefix sep s
          then cur :: split_aux sep (String.length sep - 1) EmptyString rest
          else split_aux sep 0 (cur +:+ String c EmptyString) rest
      end
  end.

Definition split (sep s : string) : list string := split_aux sep 0 EmptyString s.

(** No character of [s] is [c]. *)
Fixpoint free_of (c : ascii) (s : string) : bool :=
  match s with
  | EmptyString => true
  | String c' rest => negb (Ascii.eqb c c') && free_of c rest
  end.

End JsString.

(** ** SigninFormUtils and the fields of SigninForm

    The values and the errors of the form are optional texts;
    [_.isEmpty] holds of a missing text and of the empty one. *)
Module SigninForm.









End SigninForm.

(** ** Reactotron: the packager host and the store enhancer *)
Module Reactotron.

(** [scriptURL?.split?.('://')?.[1]?.split?.(':')?.[0] || 'localhost'],
    computed only when [__DEV__] is set. *)
Definition packagerHostname (DEV : bool) (scriptURL : option string) : string :=
  if DEV then
    let host :=
      u ← scriptURL;
      afterScheme ← JsString.split "://" u !! 1%nat;
      JsString.split ":" afterScheme !! 0%nat in
    match host with
    | Some h => if String.eqb h EmptyString then "localhost" else h
    | None => "localhost"
    end
  else "localhost".

Inductive Enhancer : Type := ReactotronEnhancer.

Definition getReactotronEnhancer (DEV : bool) : list Enhancer :=
  if DEV then [ReactotronEnhancer] else [].

End Reactotron.

(** ** Store.ts: the enhancers of the store *)
Module Store.

Definition enhancers (DEV : bool) (AppEnv : AppEnvConst.t) : list Reactotron.Enhancer :=
  if AppEnvConst.isDevelopment AppEnv then Reactotron.getReactotronEnhancer DEV else [].

End Store.

(** ** SentryConfig: initialisation

    The module initialises the SDK when it is loaded, under a guard, and
    gives it a [beforeSend] filter. *)
Module SentryInit.
Import Axios Effects.

Record InitOptions : Type := {
  dsn : string;
  environment : string;
  debug : bool
}.

(** The options of the [Sentry.init] call, or [None] when the guard keeps
    the module from calling it. *)
Definition init (AppEnv : AppEnvConst.t) : option InitOptions :=
  if negb (AppEnvConst.isDevelopment AppEnv)
     && negb (String.eqb (AppEnvConst.sentryUrl AppEnv) EmptyString)
     && negb (String.eqb (AppEnvConst.sentryUrl AppEnv) "NA")
  then Some {| dsn := AppEnvConst.sentryUrl AppEnv;
               environment := AppEnvConst.environment AppEnv;
               debug := AppEnvConst.isDevelopment AppEnv |}
  else None.

Definition ignoredErrors : list string := ["Network request failed"].

(** [beforeSend]: [true] when the event is let through.  The original
    exception is an [Error], or [None] when there is none. *)
Definition beforeSend (originalException : option ErrorObject) : bool :=
  match originalException with
  | Some error =>
      negb (existsb (fun err => JsString.includes err (message error)) ignoredErrors)
  | None => true
  end.

(** The exception of a [Sentry.captureException] call, which the SDK
    passes on to [beforeSend] as [hint.originalException]; [None] for a
    call that is not one. *)
Definition capturedException {R} (call : SentryCall R) : option ErrorObject :=
  match call with
  | CaptureException name message _ =>
      Some {| name := name; message := message; isAxiosError := false |}
  | CaptureError e => Some e
  | CaptureMessage _ _ _ | SetUser _ _ _ _ _ => None
  end.

End SentryInit.

(** ** withCustomSigning.js: the Android signing plugin

    The project is a finite map from paths to the contents of regular
    files, together with the set of the directories that exist;
    permissions are not part of the model.  [path.join] is a parameter.

    File contents are sequences of bytes.  For [includes] that is as good
    as the UTF-16 units JavaScript works on; for the [.] of a regular
    expression it is so on ASCII text only, where a byte is one unit, and
    the statements that depend on where the pattern matches are made for
    ASCII text ([ascii_only]). *)
Module CustomSigning.

(** The double quote, and the line feed. *)
Definition dq : string := String "034"%char EmptyString.
Definition lf : string := String "010"%char EmptyString.

(** The text written to [custom-signing.gradle]. *)
Definition signingConfigContent : string :=
  "
    import java.nio.file.Paths
    import groovy.json.JsonSlurper

    // Read and parse credentials.json from project root
    def credentialsFile = new File(rootProject.file(" +:+ dq +:+
  "../credentials.json" +:+ dq +:+
  ").absolutePath)

    if (!credentialsFile.exists()) {
        throw new GradleException(" +:+ dq +:+
  "Missing credentials.json at project root: $credentialsFile.absolutePath" +:+ dq +:+
  ")
    }

    def credentials = new JsonSlurper().parse(credentialsFile)

    // Create dynamic signing configs for each environment
    android.signingConfigs {
        // Keep existing debug config
        debug {
            storeFile file('debug.keystore')
            storePassword 'android'
            keyAlias 'androiddebugkey'
            keyPassword 'android'
        }
        def envConfig = credentials.android.keystore
        release {
            def resolvedKeystorePath = Paths.get(envConfig.keystorePath)
            def storeFilePath = resolvedKeystorePath.isAbsolute() ? 
                resolvedKeystorePath : 
                rootProject.file(" +:+ dq +:+
  ".." +:+ dq +:+
  ").toPath().resolve(resolvedKeystorePath)
            
            storeFile storeFilePath.toFile()
            storePassword envConfig.keystorePassword
            keyAlias envConfig.keyAlias
            keyPassword envConfig.keyPassword ?: envConfig.keystorePassword
            
            println " +:+ dq +:+
  "Configured signing for environment: release with keystore: $storeFilePath" +:+ dq +:+
  "
        }
    }

    android.buildTypes {
        release {
            def defaultSigning = android.signingConfigs.findByName(" +:+ dq +:+
  "release" +:+ dq +:+
  ") ?: signingConfigs.debug
            signingConfig defaultSigning
        }
    }

    println " +:+ dq +:+
  "Custom signing configuration applied successfully" +:+ dq +:+
  "
".

(** Text of ASCII characters: each is one byte, and one UTF-16 unit. *)
Definition ascii_char (c : ascii) : bool :=
  let 'Ascii _ _ _ _ _ _ _ b7 := c in negb b7.

Fixpoint ascii_only (s : string) : bool :=
  match s with
  | EmptyString => true
  | String c rest => ascii_char c && ascii_only rest
  end.

(** A regular expression without operators: characters, and [.] for any
    character that does not end a line.  Matching goes byte by byte, which
    is what JavaScript does on ASCII text. *)
Inductive Atom : Type :=
| Lit (c : ascii)
| Dot.

Fixpoint lits (s : string) : list Atom :=
  match s with
  | EmptyString => []
  | String c rest => Lit c :: lits rest
  end.

Definition atom_matches (a : Atom) (c : ascii) : bool :=
  match a with
  | Lit c' => Ascii.eqb c' c
  | Dot => negb (Ascii.eqb c "010"%char) && negb (Ascii.eqb c "013"%char)
  end.

(** A match of the whole pattern at the start of [s]: what follows it. *)
Fixpoint match_here (pattern : list Atom) (s : string) : option string :=
  match pattern with
  | [] => Some s
  | a :: pattern' =>
      match s with
      | EmptyString => None
      | String c rest => if atom_matches a c then match_here pattern' rest else None
      end
  end.

(** [s.replace(pattern, replacement)] for a pattern without the [g] flag
    and a replacement without [$]: the leftmost match is replaced. *)
Fixpoint replace_first (pattern : list Atom) (replacement s : string) : string :=
  match match_here pattern s with
  | Some rest => replacement +:+ rest
  | None =>
      match s with
      | EmptyString => EmptyString
      | String c rest => String c (replace_first pattern replacement rest)
      end
  end.

(** The pattern does not match at any position inside [pre], for the
    text [pre +:+ rest]. *)
Fixpoint unmatched (pattern : list Atom) (pre rest : string) : bool :=
  match pre with
  | EmptyString => true
  | String _ pre' =>
      match match_here pattern (pre +:+ rest) with
      | Some _ => false
      | None => unmatched pattern pre' rest
      end
  end.

(** [/apply plugin: "com.android.application"/] *)
Definition applyPlugin : list Atom :=
  lits "apply plugin: " ++ lits dq ++ lits "com" ++ [Dot] ++ lits "android" ++ [Dot]
    ++ lits "application" ++ lits dq.

Definition applyPluginLine : string :=
  "apply plugin: " +:+ dq +:+ "com.android.application" +:+ dq.

Definition applyFrom : string :=
  "apply from: " +:+ dq +:+ "./custom-signing.gradle" +:+ dq.

Record Outcome : Type := {
  completed : bool;
  files : gmap string string;
  console : list string
}.

Section Plugin.
Variable join : list string -> string.

Definition androidAppPath (projectRoot : string) : string :=
  join [projectRoot; "android"; "app"].
Definition signingFilePath (projectRoot : string) : string :=
  join [androidAppPath projectRoot; "custom-signing.gradle"].
Definition buildGradlePath (projectRoot : string) : string :=
  join [androidAppPath projectRoot; "build.gradle"].

(** [modifyGradleFiles(projectRoot, config)] in a project whose
    directory [android/app] exists, so that [writeFileSync] can create
    the signing script; [config] is not read.  A run is not completed
    when [readFileSync] throws for want of the file. *)
Definition modifyGradleFiles (projectRoot : string) (fs : gmap string string) : Outcome :=
  let fs1 := <[signingFilePath projectRoot := signingConfigContent]> fs in
  let out1 := ["✓ Created custom-signing.gradle"] in
  match fs1 !! buildGradlePath projectRoot with
  | None => {| completed := false; files := fs1; console := out1 |}
  | Some buildGradleContent =>
      if negb (JsString.includes applyFrom buildGradleContent) then
        let replaced :=
          replace_first applyPlugin (applyPluginLine +:+ lf +:+ applyFrom)
            buildGradleContent in
        {| completed := true;
           files := <[buildGradlePath projectRoot := replaced]> fs1;
           console := out1 ++
             ["Modified build.gradle to include custom-signing.gradle"] |}
      else
        {| completed := true;
           files := fs1;
           console := out1 ++ ["build.gradle already includes custom-signing.gradle"] |}
  end.

(** [modifyGradleFiles(projectRoot, config)] in any project: without the
    directory [android/app] the first [writeFileSync] throws, before
    anything is written or logged. *)
Definition modifyGradleFilesIn (dirs : gset string) (projectRoot : string)
    (fs : gmap string string) : Outcome :=
  if decide (androidAppPath projectRoot ∈ dirs)
  then modifyGradleFiles projectRoot fs
  else {| completed := false; files := fs; console := [] |}.

End Plugin.

(** The content of [build.gradle] after a run that found the file. *)
Definition nextGradle (c : string) : string :=
  if JsString.includes applyFrom c then c
  else replace_first applyPlugin (applyPluginLine +:+ lf +:+ applyFrom) c.

(** A [path.join] for the examples: the segments with [/] between. *)
Fixpoint slashes (segments : list string) : string :=
  match segments with
  | [] => "."
  | [s] => s
  | s :: rest => s +:+ "/" +:+ slashes rest
  end.

(** A project for the examples. *)
Definition sampleProject : gmap string string :=
  {[ "app/android/app/build.gradle" :=
       "// app module" +:+ lf +:+ applyPluginLine +:+ lf +:+ "android { }" ]}.

End CustomSigning.

(** ** Paths into a configuration *)
Module JsPath.

(** [a[i]] *)
Definition at_index (i : nat) (a : Js.value) : Js.value :=
  match a with
  | Js.Arr items => default Js.Undefined (items !! i)
  | _ => Js.Undefined
  end.

(** The properties that the object literal of [defineConfig] writes. *)
Definition writtenKeys : list string :=
  ["name"; "slug"; "version"; "orientation"; "icon"; "scheme";
   "userInterfaceStyle"; "newArchEnabled"; "splash"; "ios"; "android"; "web";
   "plugins"; "experiments"; "extra"].

End JsPath.

(** ** Vocabulary for what an execution captures *)
Module CaptureInvariant.
Import Axios Apisauce Effects APIConfig.

Section Invariant.
Context {R : Type} {ErrorResponse : Type}.
Variable AppEnv : AppEnvConst.t.

(** Nothing was passed to [sentryCaptureAPIException], nothing to Sentry. *)
Definition quiet (w : World R) : Prop :=
  captureAPICalls w = [] /\ sentry w = [].

(** At most one capture, at most one Sentry call for it, and none in
    development mode. *)
Definition bounded (w : World R) : Prop :=
  length (captureAPICalls w) <= 1 /\
  length (sentry w) <= length (captureAPICalls w) /\
  (AppEnvConst.isDevelopment AppEnv = true -> sentry w = []).

Definition capture_inv (x : Execution (R := R) (ErrorResponse := ErrorResponse)) : Prop :=
  match phase x with
  | Idle | InFlight _ | Done (Returns (Fulfilled _)) => quiet (world x)
  | Done _ => bounded (world x)
  end.

(** Two payloads that the thunk cannot tell apart for a method: they
    agree on the settings, the paths and the toast flag, on the data when
    the method has a body, and on the parameters when it has none. *)
Definition same_for_method (method : string) (a b : ThunkArg) : Prop :=
  setting a = setting b /\ paths a = paths b /\
  shouldShowToast a = shouldShowToast b /\
  if bool_decide (toLowerCase method ∈ ["post"; "put"; "patch"])
  then data a = data b
  else params a = params b.

End Invariant.
End CaptureInvariant.

(** ** More concrete inputs *)
Module MoreSamples.
Import Axios Apisauce.

Definition signedIn : ApiResponse SentryConfig.UserResponse :=
  {| ok := true;
     problem := None;
     originalError := None;
     data := Some {| SentryConfig.id := Some "17"; SentryConfig.email := Some "a@b.c";
                     SentryConfig.phone := None; SentryConfig.displayName := Some "A";
                     SentryConfig.photoURL := None; SentryConfig.userMessage := None |};
     status := Some 200%Z;
     Apisauce.headers := None;
     config := Some emptyConfig;
     duration := Some 80%Z |}.

Definition credentials : APIConfig.ThunkArg :=
  {| APIConfig.data := Js.Obj [("email", Js.Str "a@b.c")];
     APIConfig.params := None; APIConfig.setting := None;
     APIConfig.paths := None; APIConfig.shouldShowToast := None |}.

(** The same payload with query parameters added. *)
Definition credentialsWithParams : APIConfig.ThunkArg :=
  {| APIConfig.data := Js.Obj [("email", Js.Str "a@b.c")];
     APIConfig.params := Some [("lang", Js.Str "en")]; APIConfig.setting := None;
     APIConfig.paths := None; APIConfig.shouldShowToast := None |}.

End MoreSamples.

(** * Properties *)

(** ** Environment variants and the Expo configuration *)
Module BuildConfigSpec.
Import BuildConfig AppConfig.

Lemma assoc_last_app k l1 l2 :
  Js.assoc_last k (l1 ++ l2) =
  match Js.assoc_last k l2 with
  | Some v => Some v
  | None => Js.assoc_last k l1
  end.
Proof.
  induction l1 as [|[k' v'] l1 IH]; simpl.
  - by destruct (Js.assoc_last k l2).
  - rewrite IH. by destruct (Js.assoc_last k l2).
Qed.

(** A key written after the spread wins over the same key of [config]. *)
Lemma get_after_spread k base own v :
  Js.assoc_last k own = Some v ->
  Js.get k (Js.Obj (base ++ own)) = v.
Proof. intros Hown. simpl. by rewrite assoc_last_app, Hown. Qed.

Lemma defineConfig_name NODE_ENV config :
  Js.get "name" (defineConfig NODE_ENV config)
  = Js.Str (appName (getEnvironmentConfig NODE_ENV)).
Proof. unfold defineConfig. by apply get_after_spread. Qed.

Lemma defineConfig_ios NODE_ENV config :
  Js.get "bundleIdentifier" (Js.get "ios" (defineConfig NODE_ENV config))
  = Js.Str (bundleIdentifier (getEnvironmentConfig NODE_ENV)).
Proof. unfold defineConfig. cbn [Js.get]. by rewrite assoc_last_app. Qed.

Lemma defineConfig_android NODE_ENV config :
  Js.get "package" (Js.get "android" (defineConfig NODE_ENV config))
  = Js.Str (bundleIdentifier (getEnvironmentConfig NODE_ENV)).
Proof. unfold defineConfig. cbn [Js.get]. by rewrite assoc_last_app. Qed.

(** C6.  [getEnvironmentConfig] gives each of the three variants its app
    name and bundle identifier, and [defineConfig] puts the values of the
    selected variant into [name], [ios.bundleIdentifier] and
    [android.package], whatever the incoming [config] holds. *)
Theorem environment_variants_configured :
  getEnvironmentConfig (Some "development")
    = {| appName := "withinstruction-dev";
         bundleIdentifier := "com.simform.withinstruction.dev" |} /\
  getEnvironmentConfig (Some "preview")
    = {| appName := "withinstruction-preview";
         bundleIdentifier := "com.simform.withinstruction.preview" |} /\
  getEnvironmentConfig (Some "production")
    = {| appName := "withinstruction";
         bundleIdentifier := "com.simform.withinstruction" |} /\
  forall (NODE_ENV : option string) (config : Js.value),
    let selected := getEnvironmentConfig NODE_ENV in
    let result := defineConfig NODE_ENV config in
    Js.get "name" result = Js.Str (appName selected) /\
    Js.get "bundleIdentifier" (Js.get "ios" result) = Js.Str (bundleIdentifier selected) /\
    Js.get "package" (Js.get "android" result) = Js.Str (bundleIdentifier selected).
Proof.
  repeat split.
  - apply defineConfig_name.
  - apply defineConfig_ios.
  - apply defineConfig_android.
Qed.

(** The incoming configuration cannot keep its own identifier. *)
Example defineConfig_overrides :
  Js.get "package"
    (Js.get "android"
       (defineConfig (Some "preview")
          (Js.Obj [("android", Js.Obj [("package", Js.Str "org.example.other")])])))
  = Js.Str "com.simform.withinstruction.preview".
Proof. reflexivity. Qed.

Lemma eqb_false_of_ne (a b : string) : a <> b -> String.eqb a b = false.
Proof. intros Hne. by apply String.eqb_neq. Qed.

(** C10.  Any environment other than ['development'] and ['preview'], the
    undefined one included, gets the production name and identifier. *)
Theorem getEnvironmentConfig_falls_back_to_production (environment : option string) :
  environment <> Some "development" ->
  environment <> Some "preview" ->
  getEnvironmentConfig environment
  = {| appName := "withinstruction";
       bundleIdentifier := "com.simform.withinstruction" |}.
Proof.
  intros Hdev Hpre. destruct environment as [env|]; [|reflexivity].
  unfold getEnvironmentConfig.
  rewrite (eqb_false_of_ne env "development") by congruence.
  by rewrite (eqb_false_of_ne env "preview") by congruence.
Qed.

Lemma getEnvironmentConfig_falls_back_witness :
  getEnvironmentConfig (Some "prodution")
  = {| appName := "withinstruction";
       bundleIdentifier := "com.simform.withinstruction" |}
  /\ getEnvironmentConfig (Some EmptyString) = getEnvironmentConfig None.
Proof.
  split.
  - apply (getEnvironmentConfig_falls_back_to_production (Some "prodution"));
      discriminate.
  - rewrite (getEnvironmentConfig_falls_back_to_production (Some EmptyString))
      by discriminate.
    symmetry. apply (getEnvironmentConfig_falls_back_to_production None); discriminate.
Defined.

End BuildConfigSpec.

(** ** The build scripts *)
Module BuildScriptsSpec.
Import CopyEnv IosBuild.

Lemma env_file_of_inv arg src :
  env_file_of arg = Some src ->
  (arg = "prod" /\ src = ".env.production") \/
  (arg = "preview" /\ src = ".env.preview") \/
  (arg = "dev" /\ src = ".env.development").
Proof.
  unfold env_file_of.
  destruct (String.eqb_spec arg "prod") as [->|_]; [intros [= <-]; auto|].
  destruct (String.eqb_spec arg "preview") as [->|_]; [intros [= <-]; auto|].
  destruct (String.eqb_spec arg "dev") as [->|_]; [intros [= <-]; auto|].
  discriminate.
Qed.

Lemma env_file_of_not_env arg src : env_file_of arg = Some src -> src <> ".env".
Proof.
  intros H. destruct (env_file_of_inv _ _ H) as [[_ ->]|[[_ ->]|[_ ->]]]; discriminate.
Qed.

Lemma touch_lookup f fs : touch f fs !! f = Some (default EmptyString (fs !! f)).
Proof.
  unfold touch. destruct (fs !! f) eqn:E; simpl.
  - by rewrite E.
  - by rewrite lookup_insert_eq.
Qed.

Lemma touch_lookup_ne f g fs : f <> g -> touch f fs !! g = fs !! g.
Proof.
  intros Hne. unfold touch. destruct (fs !! f); [done|].
  by rewrite lookup_insert_ne.
Qed.

(** The first step of the script leaves [touch ".env" fs]. *)
Lemma copy_env_files args fs :
  files (copy_env args fs) =
  match env_file_of (Sh.positional 0 args) with
  | Some src => cp src ".env" (touch ".env" fs)
  | None => touch ".env" fs
  end.
Proof.
  unfold copy_env. destruct (fs !! ".env") eqn:E.
  - assert (touch ".env" fs = fs) as -> by (unfold touch; by rewrite E).
    by destruct (env_file_of _).
  - by destruct (env_file_of _).
Qed.

Lemma copy_env_other_files args fs path :
  path <> ".env" -> files (copy_env args fs) !! path = fs !! path.
Proof.
  intros Hne. rewrite copy_env_files.
  destruct (env_file_of _) as [src|].
  - unfold cp. destruct (touch ".env" fs !! src).
    + rewrite lookup_insert_ne by done. by apply touch_lookup_ne.
    + by apply touch_lookup_ne.
  - by apply touch_lookup_ne.
Qed.

Lemma copy_env_unrecognized args fs :
  env_file_of (Sh.positional 0 args) = None ->
  status (copy_env args fs) = 1 /\
  files (copy_env args fs) !! ".env" = Some (default EmptyString (fs !! ".env")).
Proof.
  intros Hnone. split.
  - unfold copy_env. rewrite Hnone. by destruct (fs !! ".env").
  - rewrite copy_env_files, Hnone. apply touch_lookup.
Qed.

Lemma copy_env_selected args fs src content :
  env_file_of (Sh.positional 0 args) = Some src ->
  fs !! src = Some content ->
  status (copy_env args fs) = 0 /\
  files (copy_env args fs) !! ".env" = Some content.
Proof.
  intros Hsel Hsrc. split.
  - unfold copy_env. rewrite Hsel. by destruct (fs !! ".env").
  - rewrite copy_env_files, Hsel. unfold cp.
    rewrite touch_lookup_ne by (symmetry; by eapply env_file_of_not_env).
    rewrite Hsrc. apply lookup_insert_eq.
Qed.

Lemma resolve_without_team args :
  Sh.positional 1 args = EmptyString -> resolve args = inl 1.
Proof. intros H. unfold resolve. by rewrite H. Qed.

Lemma positional_or_nonempty n word args :
  word <> EmptyString -> Sh.positional_or n word args <> EmptyString.
Proof.
  intros Hword. unfold Sh.positional_or.
  by destruct (String.eqb_spec (Sh.positional n args) EmptyString).
Qed.

Lemma resolve_production args :
  Sh.positional 1 args <> EmptyString ->
  Sh.positional_or 0 "Production" args = "Production" ->
  resolve args =
  inr {| ENVIRONMENT := EmptyString;
         TEAM_ID := Sh.positional 1 args;
         ALLOW_EXPORT := "false";
         PROJECT_NAME := "withinstruction";
         SCHEME_NAME := "withinstruction";
         ARCHIVE_PATH := "./ios/build/withinstruction.xcarchive";
         EXPORT_PATH := "./ios/build";
         EXPORT_OPTIONS_PLIST := "./ios/ExportOptions.plist" |}.
Proof.
  intros Hteam Henv. unfold resolve. cbv zeta. rewrite Henv.
  by rewrite (BuildConfigSpec.eqb_false_of_ne _ _ Hteam).
Qed.

Lemma resolve_other args :
  Sh.positional 1 args <> EmptyString ->
  Sh.positional_or 0 "Production" args <> "Production" ->
  let environment := Sh.positional_or 0 "Production" args in
  resolve args =
  inr {| ENVIRONMENT := environment;
         TEAM_ID := Sh.positional 1 args;
         ALLOW_EXPORT := Sh.positional_or 2 "false" args;
         PROJECT_NAME := "withinstruction" +:+ environment;
         SCHEME_NAME := "withinstruction" +:+ environment;
         ARCHIVE_PATH := "./ios/build/" +:+ ("withinstruction" +:+ environment) +:+ ".xcarchive";
         EXPORT_PATH := "./ios/build";
         EXPORT_OPTIONS_PLIST := "./ios/ExportOptions.plist" |}.
Proof.
  intros Hteam Henv environment. subst environment. unfold resolve. cbv zeta.
  rewrite (BuildConfigSpec.eqb_false_of_ne _ _ Hteam).
  rewrite (BuildConfigSpec.eqb_false_of_ne (Sh.positional_or 0 "Production" args) EmptyString)
    by (by apply positional_or_nonempty).
  by rewrite (BuildConfigSpec.eqb_false_of_ne _ _ Henv).
Qed.

(** The environment script makes a file of its own before it looks at its
    argument. *)
Example copy_env_creates_env_file :
  copy_env ["staging"] ∅ =
  {| status := 1;
     files := {[ ".env" := EmptyString ]};
     stdout := [".env file does not exist. Creating .env file...";
                "Invalid environment specified. Please use 'production', 'preview', or 'development'."] |}.
Proof. reflexivity. Qed.

(** The iOS script does more than substitute its parameters: a production
    build loses the environment name and the request to export, and a run
    without team identifier stops with status 1 before any toolchain
    command. *)
Lemma ios_build_not_only_substitution :
  (exists p,
     resolve ["Production"; "ABCDEFGHIJ"; "true"] = inr p /\
     ENVIRONMENT p <> "Production" /\
     ALLOW_EXPORT p <> "true" /\
     prepares_export_options p = false /\
     xcodebuild_archive p =
       [ "xcodebuild"; "archive";
         "-workspace"; "withinstruction.xcworkspace";
         "-scheme"; "withinstruction";
         "-destination"; "generic/platform=iOS";
         "-archivePath"; "./ios/build/withinstruction.xcarchive";
         "-configuration"; "Release";
         "CODE_SIGN_STYLE=Automatic";
         "DEVELOPMENT_TEAM=ABCDEFGHIJ";
         "ARCHS=arm64";
         "-allowProvisioningUpdates" ]) /\
  resolve ["Preview"] = inl 1.
Proof.
  split; [|reflexivity].
  eexists. split; [reflexivity|]. simpl. repeat split; discriminate.
Qed.

(** C7, as the scripts have it.  The environment script touches no file but
    [.env].  For the argument [prod] it copies [.env.production] into
    [.env], for [preview] it copies [.env.preview], for [dev] it copies
    [.env.development], and exits with status 0; for any other argument
    it exits with status 1 and copies nothing ([.env] keeps its content,
    or is created empty).  The parameter handling of the iOS script exits
    with status 1 without a team identifier.  For the environment
    [Production] (also the default) it goes on with an empty environment
    suffix and [ALLOW_EXPORT] set to [false], whatever the third argument
    was, so that step 5 does not prepare export options; for any other
    environment it keeps the export flag as given.  In both cases the
    environment and the team identifier are substituted into the scheme
    and into the words of the archive command. *)
Theorem build_scripts_behaviour (env_args ios_args : list string)
    (fs : gmap string string) :
  let run := copy_env env_args fs in
  let arg := Sh.positional 0 env_args in
  let environment := Sh.positional_or 0 "Production" ios_args in
  let team := Sh.positional 1 ios_args in
  (forall path, path <> ".env" -> files run !! path = fs !! path) /\
  (forall content,
     arg = "prod" -> fs !! ".env.production" = Some content ->
     status run = 0 /\ files run !! ".env" = Some content) /\
  (forall content,
     arg = "preview" -> fs !! ".env.preview" = Some content ->
     status run = 0 /\ files run !! ".env" = Some content) /\
  (forall content,
     arg = "dev" -> fs !! ".env.development" = Some content ->
     status run = 0 /\ files run !! ".env" = Some content) /\
  (arg <> "prod" -> arg <> "preview" -> arg <> "dev" ->
     status run = 1 /\
     files run !! ".env" = Some (default EmptyString (fs !! ".env"))) /\
  (team = EmptyString -> resolve ios_args = inl 1) /\
  (team <> EmptyString -> environment = "Production" ->
     exists p, resolve ios_args = inr p /\
       ENVIRONMENT p = EmptyString /\ TEAM_ID p = team /\
       ALLOW_EXPORT p = "false" /\ prepares_export_options p = false /\
       SCHEME_NAME p = "withinstruction" /\
       xcodebuild_archive p =
         [ "xcodebuild"; "archive";
           "-workspace"; "withinstruction.xcworkspace";
           "-scheme"; "withinstruction";
           "-destination"; "generic/platform=iOS";
           "-archivePath"; "./ios/build/withinstruction.xcarchive";
           "-configuration"; "Release";
           "CODE_SIGN_STYLE=Automatic";
           "DEVELOPMENT_TEAM=" +:+ team;
           "ARCHS=arm64";
           "-allowProvisioningUpdates" ]) /\
  (team <> EmptyString -> environment <> "Production" ->
     exists p, resolve ios_args = inr p /\
       ENVIRONMENT p = environment /\ TEAM_ID p = team /\
       ALLOW_EXPORT p = Sh.positional_or 2 "false" ios_args /\
       prepares_export_options p
         = String.eqb (Sh.positional_or 2 "false" ios_args) "true" /\
       SCHEME_NAME p = "withinstruction" +:+ environment /\
       xcodebuild_archive p =
         [ "xcodebuild"; "archive";
           "-workspace"; ("withinstruction" +:+ environment) +:+ ".xcworkspace";
           "-scheme"; "withinstruction" +:+ environment;
           "-destination"; "generic/platform=iOS";
           "-archivePath";
           "./ios/build/" +:+ ("withinstruction" +:+ environment) +:+ ".xcarchive";
           "-configuration"; "Release";
           "CODE_SIGN_STYLE=Automatic";
           "DEVELOPMENT_TEAM=" +:+ team;
           "ARCHS=arm64";
           "-allowProvisioningUpdates" ]).
Proof.
  intros run arg environment team. subst run arg environment team.
  split; [intros path; apply copy_env_other_files|].
  split.
  { intros content Harg. apply copy_env_selected. by rewrite Harg. }
  split.
  { intros content Harg. apply copy_env_selected. by rewrite Harg. }
  split.
  { intros content Harg. apply copy_env_selected. by rewrite Harg. }
  split.
  { intros Hprod Hpreview Hdev. apply copy_env_unrecognized. unfold env_file_of.
    by rewrite !BuildConfigSpec.eqb_false_of_ne. }
  split; [apply resolve_without_team|].
  split.
  - intros Hteam Henv. eexists. split; [by apply resolve_production|]. done.
  - intros Hteam Henv. eexists. split; [by apply resolve_other|]. done.
Qed.

Lemma build_scripts_behaviour_witness :
  let fs : gmap string string :=
    {[ ".env.production" := "API=https://example";
       ".env.preview" := "API=https://preview.example";
       ".env.development" := "API=http://localhost" ]} in
  files (copy_env ["prod"] fs) !! ".env" = Some "API=https://example" /\
  files (copy_env ["preview"] fs) !! ".env" = Some "API=https://preview.example" /\
  files (copy_env ["dev"] fs) !! ".env" = Some "API=http://localhost" /\
  status (copy_env ["production"] fs) = 1 /\
  resolve ["Dev"] = inl 1 /\
  (exists p, resolve ["Production"; "ABCDEFGHIJ"; "true"] = inr p /\
             prepares_export_options p = false) /\
  (exists p, resolve ["Dev"; "ABCDEFGHIJ"; "true"] = inr p /\
             SCHEME_NAME p = "withinstructionDev" /\
             prepares_export_options p = true).
Proof.
  intros fs.
  pose proof (build_scripts_behaviour ["prod"] ["Dev"] fs)
    as (_ & Hprod & _ & _ & _ & Hnoteam & _ & _).
  pose proof (build_scripts_behaviour ["preview"] ["Dev"] fs)
    as (_ & _ & Hpreview & _).
  pose proof (build_scripts_behaviour ["dev"] ["Dev"] fs)
    as (_ & _ & _ & Hdev & _).
  pose proof (build_scripts_behaviour ["production"] ["Production"; "ABCDEFGHIJ"; "true"] fs)
    as (_ & _ & _ & _ & Hbad & _ & Hproduction & _).
  pose proof (build_scripts_behaviour [] ["Dev"; "ABCDEFGHIJ"; "true"] fs)
    as (_ & _ & _ & _ & _ & _ & _ & Hother).
  split; [exact (proj2 (Hprod _ eq_refl eq_refl))|].
  split; [exact (proj2 (Hpreview _ eq_refl eq_refl))|].
  split; [exact (proj2 (Hdev _ eq_refl eq_refl))|].
  split; [apply Hbad; discriminate|].
  split; [exact (Hnoteam eq_refl)|].
  split.
  - destruct Hproduction as (p & Hp & _ & _ & _ & Hexport & _); [discriminate|reflexivity|].
    exists p. by split.
  - destruct Hother as (p & Hp & _ & _ & _ & Hexport & Hscheme & _);
      [discriminate|discriminate|].
    exists p. by repeat split.
Defined.

End BuildScriptsSpec.

(** ** Error messages *)
Module ErrorMessagesSpec.
Import Axios Apisauce Effects APIConfig ErrorTable.

Section Messages.
Context {R : Type} `{!ResponseBound R}.
Context {ErrorResponse : Type}.
Variable APIError : Strings.APIError.
Variable getErrorResponse : string -> ErrorResponse.

(** Every arm of the [switch] goes through [handleClientError]; only the
    default message differs. *)
Lemma handleError_eq (response : ApiResponse R) (toast : bool) :
  handleError APIError getErrorResponse response toast
  = handleClientError getErrorResponse response
      (localizedMessage APIError (problem response)).
Proof.
  unfold handleError, localizedMessage.
  destruct (problem response) as [p|]; [|reflexivity].
  repeat (destruct (String.eqb p _); [reflexivity|]). reflexivity.
Qed.

Lemma localizedMessage_entries :
  localizedMessage APIError (Some CLIENT_ERROR) = Strings.clientError APIError /\
  localizedMessage APIError (Some SERVER_ERROR) = Strings.serverError APIError /\
  localizedMessage APIError (Some TIMEOUT_ERROR) = Strings.timeoutError APIError /\
  localizedMessage APIError (Some CONNECTION_ERROR) = Strings.connectionError APIError /\
  localizedMessage APIError (Some NETWORK_ERROR) = Strings.networkError APIError /\
  localizedMessage APIError (Some CANCEL_ERROR) = Strings.cancelError APIError /\
  localizedMessage APIError (Some UNKNOWN_ERROR) = Strings.somethingWentWrong APIError /\
  localizedMessage APIError None = Strings.somethingWentWrong APIError.
Proof. repeat split. Qed.

(** C1, as the code has it.  For a response whose body carries no message,
    [handleError] is the lookup of the problem code in the table of
    localized messages; the toast flag plays no part. *)
Theorem handleError_lookup_without_body_message (response : ApiResponse R) (toast : bool) :
  Apisauce.data response ≫= bodyMessage = None ->
  handleError APIError getErrorResponse response toast
  = getErrorResponse (localizedMessage APIError (problem response)).
Proof.
  intros Habsent. rewrite handleError_eq. unfold handleClientError.
  by rewrite Habsent.
Qed.

(** C8.  A message in the body of the response is the message of the
    error, for every problem code; the localized text of the problem code
    stands in only when the body has none. *)
Theorem handleError_prefers_body_message (response : ApiResponse R) (toast : bool) :
  (forall m, Apisauce.data response ≫= bodyMessage = Some m ->
     handleError APIError getErrorResponse response toast = getErrorResponse m) /\
  handleError APIError getErrorResponse response toast
  = getErrorResponse
      (default (localizedMessage APIError (problem response))
         (Apisauce.data response ≫= bodyMessage)).
Proof.
  split.
  - intros m Hm. rewrite handleError_eq. unfold handleClientError. by rewrite Hm.
  - by rewrite handleError_eq.
Qed.

End Messages.

(** With a message in the body, the result is not the entry of the table. *)
Lemma handleError_is_not_a_lookup :
  handleError Samples.APIError Samples.getErrorResponse Samples.signInRefused true
    = "Invalid email or password" /\
  Samples.getErrorResponse
    (localizedMessage Samples.APIError (problem Samples.signInRefused)) = "Client error" /\
  handleError Samples.APIError Samples.getErrorResponse Samples.signInRefused true
    <> Samples.getErrorResponse
         (localizedMessage Samples.APIError (problem Samples.signInRefused)).
Proof. repeat split. discriminate. Qed.

Lemma handleError_lookup_witness :
  handleError Samples.APIError Samples.getErrorResponse Samples.serverDown true
  = "Server error".
Proof.
  apply (handleError_lookup_without_body_message Samples.APIError
           Samples.getErrorResponse Samples.serverDown true).
  reflexivity.
Defined.

Lemma handleError_prefers_body_message_witness :
  handleError Samples.APIError Samples.getErrorResponse Samples.signInRefused false
  = "Invalid email or password".
Proof.
  apply (proj1 (handleError_prefers_body_message Samples.APIError
                  Samples.getErrorResponse Samples.signInRefused false)).
  reflexivity.
Defined.

End ErrorMessagesSpec.

(** ** Crash reporting *)
Module CrashReportingSpec.
Import Axios Apisauce Effects SentryConfig APIConfig ThunkInvariant.

Section Reporting.
Context {R : Type} `{!ResponseBound R}.
Context {ErrorResponse : Type}.
Variable AppEnv : AppEnvConst.t.
Variable APIError : Strings.APIError.
Variable stringify : Js.value -> string.
Variable getErrorResponse : string -> ErrorResponse.
Variable formatString : string -> Dict -> string.
Variable USER_CANCELLED_REQUEST : string.

Lemma sentryCaptureAPIException_run endpoint (response : option (ApiResponse R)) error w :
  sentryCaptureAPIException AppEnv APIError endpoint response error w =
  (Returns tt,
   let called :=
     log_capture {| capture_endpoint := endpoint; capture_response := response;
                    capture_error := error |} w in
   if AppEnvConst.isDevelopment AppEnv then called
   else log_sentry (reported APIError endpoint response error) called).
Proof.
  unfold sentryCaptureAPIException.
  by destruct (AppEnvConst.isDevelopment AppEnv).
Qed.

Lemma processResponse_cancelled (response : ApiResponse R) url w :
  message <$> originalError response = Some USER_CANCELLED_REQUEST ->
  processResponseAndCaptureInfo AppEnv APIError USER_CANCELLED_REQUEST response url w
  = (Returns tt, w).
Proof.
  intros Hmsg. unfold processResponseAndCaptureInfo.
  by rewrite bool_decide_eq_true_2.
Qed.

Lemma processResponse_other (response : ApiResponse R) url w :
  message <$> originalError response <> Some USER_CANCELLED_REQUEST ->
  processResponseAndCaptureInfo AppEnv APIError USER_CANCELLED_REQUEST response url w
  = sentryCaptureAPIException AppEnv APIError (Some url)
      (Some (responseClone response)) (bodyError response) w.
Proof.
  intros Hmsg. unfold processResponseAndCaptureInfo.
  by rewrite bool_decide_eq_false_2.
Qed.

(** C9.  A response whose original error carries the message
    [USER_CANCELLED_REQUEST] goes through [processResponseAndCaptureInfo]
    without a call of [sentryCaptureAPIException]: the world, its trace of
    such calls included, stays as it was.  And in development mode each of
    the three capture functions hands nothing to Sentry. *)
Theorem user_cancelled_request_not_reported :
  (forall (response : ApiResponse R) url w,
     message <$> originalError response = Some USER_CANCELLED_REQUEST ->
     processResponseAndCaptureInfo AppEnv APIError USER_CANCELLED_REQUEST response url w
     = (Returns tt, w)) /\
  (AppEnvConst.isDevelopment AppEnv = true ->
   forall w : World R,
     (forall endpoint response error,
        let after := sentryCaptureAPIException AppEnv APIError endpoint response error w in
        after.1 = Returns tt /\ sentry after.2 = sentry w) /\
     (forall eventName request error,
        sentryCaptureMessage AppEnv stringify eventName request error w = (Returns tt, w)) /\
     (forall error,
        sentryCaptureException AppEnv error w = (Returns tt, w))).
Proof.
  split; [apply processResponse_cancelled|].
  intros Hdev w. repeat split.
  - by rewrite sentryCaptureAPIException_run.
  - by rewrite sentryCaptureAPIException_run, Hdev.
  - unfold sentryCaptureMessage. by rewrite Hdev.
  - unfold sentryCaptureException. by rewrite Hdev.
Qed.

Lemma sentryCaptureAPIException_captured endpoint response error (w : World R) :
  captured AppEnv APIError endpoint response error w
    (sentryCaptureAPIException AppEnv APIError endpoint response error w).2.
Proof.
  rewrite sentryCaptureAPIException_run. unfold captured.
  by destruct (AppEnvConst.isDevelopment AppEnv).
Qed.

Lemma onCatch_run url error (w : World R) :
  onCatch AppEnv APIError getErrorResponse url error w =
  (Returns (Rejected (handleCatchError APIError getErrorResponse error)),
   (sentryCaptureAPIException AppEnv APIError (Some url) None error w).2).
Proof.
  unfold onCatch, mbind, M_bind, bind.
  by rewrite sentryCaptureAPIException_run.
Qed.

Lemma resume_failed_response url toast (response : ApiResponse R) w :
  ok response = false ->
  payloadCreator_resume AppEnv APIError getErrorResponse USER_CANCELLED_REQUEST
    url toast (Resolves response) w =
  (Returns (Rejected (handleError APIError getErrorResponse response toast)),
   (processResponseAndCaptureInfo AppEnv APIError USER_CANCELLED_REQUEST response url w).2).
Proof.
  intros Hok. unfold payloadCreator_resume, try_catch. rewrite Hok.
  unfold mbind, M_bind, bind.
  destruct (decide (message <$> originalError response = Some USER_CANCELLED_REQUEST)).
  - by rewrite processResponse_cancelled.
  - by rewrite processResponse_other, sentryCaptureAPIException_run.
Qed.

Lemma resume_ok_response url toast (response : ApiResponse R) w :
  ok response = true ->
  payloadCreator_resume AppEnv APIError getErrorResponse USER_CANCELLED_REQUEST
    url toast (Resolves response) w =
  (Returns (Fulfilled (Apisauce.data response)), w).
Proof. intros Hok. unfold payloadCreator_resume, try_catch. by rewrite Hok. Qed.

Lemma resume_thrown url toast error (w : World R) :
  payloadCreator_resume AppEnv APIError getErrorResponse USER_CANCELLED_REQUEST
    url toast (RejectsWith error) w =
  (Returns (Rejected (handleCatchError APIError getErrorResponse error)),
   (sentryCaptureAPIException AppEnv APIError (Some url) None error w).2).
Proof. unfold payloadCreator_resume, try_catch, throw. apply onCatch_run. Qed.

Lemma begin_supported api method url payload (w : World R) :
  toLowerCase method ∈ verbs api ->
  payloadCreator_begin AppEnv APIError getErrorResponse formatString
    USER_CANCELLED_REQUEST api method url payload w =
  (Returns (AtAwait (default true (shouldShowToast (default noArg payload)))),
   log_request
     (ThunkInvariant.requestOf formatString api method url (default noArg payload)
        {| token := nextToken w |})
     (ThunkInvariant.hooked USER_CANCELLED_REQUEST w)).
Proof.
  intros Hverb. unfold payloadCreator_begin, mbind, M_bind, bind, try_catch.
  simpl. unfold apiWithCancelToken. rewrite bool_decide_eq_true_2 by done.
  reflexivity.
Qed.

Lemma begin_unsupported api method url payload (w : World R) :
  toLowerCase method ∉ verbs api ->
  payloadCreator_begin AppEnv APIError getErrorResponse formatString
    USER_CANCELLED_REQUEST api method url payload w =
  (Returns (Finished (Rejected (handleCatchError APIError getErrorResponse notAFunction))),
   (sentryCaptureAPIException AppEnv APIError (Some url) None notAFunction
      (ThunkInvariant.hooked USER_CANCELLED_REQUEST w)).2).
Proof.
  intros Hverb. unfold payloadCreator_begin, mbind, M_bind, bind, try_catch.
  simpl. unfold apiWithCancelToken. rewrite bool_decide_eq_false_2 by done.
  unfold throw, notAFunction, ThunkInvariant.hooked. simpl.
  unfold onCatch, mbind, M_bind, bind.
  rewrite sentryCaptureAPIException_run. reflexivity.
Qed.

(** C5, as the code has it.  A response that is not ok and does not come
    from a request the user cancelled, and every error the awaited request
    throws or the call of the request function throws, is passed to
    [sentryCaptureAPIException] in the step that rejects the thunk: in the
    world that comes with the rejection the call is on the trace, and
    outside development mode the exception has been handed to Sentry. *)
Theorem failures_captured_before_rejection (url : string) (toast : bool) (w : World R) :
  (forall response : ApiResponse R,
     ok response = false ->
     message <$> originalError response <> Some USER_CANCELLED_REQUEST ->
     exists w',
       payloadCreator_resume AppEnv APIError getErrorResponse USER_CANCELLED_REQUEST
         url toast (Resolves response) w
       = (Returns (Rejected (handleError APIError getErrorResponse response toast)), w') /\
       captured AppEnv APIError
         (Some url) (Some (responseClone response)) (bodyError response) w w') /\
  (forall error : unknown,
     exists w',
       payloadCreator_resume AppEnv APIError getErrorResponse USER_CANCELLED_REQUEST
         url toast (RejectsWith error) w
       = (Returns (Rejected (handleCatchError APIError getErrorResponse error)), w') /\
       captured AppEnv APIError (Some url) None error w w') /\
  (forall api method payload,
     toLowerCase method ∉ verbs api ->
     exists w',
       payloadCreator_begin AppEnv APIError getErrorResponse formatString
         USER_CANCELLED_REQUEST api method url payload w
       = (Returns (Finished (Rejected
                     (handleCatchError APIError getErrorResponse notAFunction))), w') /\
       captured AppEnv APIError (Some url) None notAFunction
         (ThunkInvariant.hooked USER_CANCELLED_REQUEST w) w').
Proof.
  split; [|split].
  - intros response Hok Hmsg. eexists. split.
    + by apply resume_failed_response.
    + rewrite processResponse_other by done.
      apply sentryCaptureAPIException_captured.
  - intros error. eexists. split.
    + apply resume_thrown.
    + apply sentryCaptureAPIException_captured.
  - intros api method payload Hverb. eexists. split.
    + by apply begin_unsupported.
    + apply sentryCaptureAPIException_captured.
Qed.

End Reporting.

Lemma user_cancelled_request_not_reported_witness :
  captureAPICalls
    (processResponseAndCaptureInfo Samples.production Samples.APIError
       Samples.USER_CANCELLED_REQUEST Samples.userCancelled "/users" initial).2 = [] /\
  sentry
    (sentryCaptureAPIException (R := UserResponse) Samples.development Samples.APIError
       (Some "/users") None (IsString "boom") initial).2 = [].
Proof.
  split.
  - rewrite (proj1 (user_cancelled_request_not_reported Samples.production
                      Samples.APIError Samples.stringify Samples.USER_CANCELLED_REQUEST)
               Samples.userCancelled "/users" initial eq_refl).
    reflexivity.
  - apply (proj2 (user_cancelled_request_not_reported (R := UserResponse)
                    Samples.development Samples.APIError Samples.stringify
                    Samples.USER_CANCELLED_REQUEST) eq_refl initial).
Defined.

(** A response that is not ok, and nothing is captured: the request was
    cancelled by the user. *)
Lemma user_cancelled_failure_not_captured :
  ok Samples.userCancelled = false /\
  payloadCreator_resume Samples.production Samples.APIError Samples.getErrorResponse
    Samples.USER_CANCELLED_REQUEST "/users" true (Resolves Samples.userCancelled) initial
  = (Returns (Rejected "Request cancelled"), initial) /\
  captureAPICalls (R := UserResponse) initial = [] /\
  sentry (R := UserResponse) initial = [].
Proof. repeat split. Qed.

Lemma failures_captured_witness :
  exists w',
    payloadCreator_resume Samples.production Samples.APIError Samples.getErrorResponse
      Samples.USER_CANCELLED_REQUEST "/users" true (Resolves Samples.signInRefused) initial
    = (Returns (Rejected "Invalid email or password"), w') /\
    length (captureAPICalls w') = 1 /\ length (sentry w') = 1.
Proof.
  destruct (proj1 (failures_captured_before_rejection Samples.production Samples.APIError
                     Samples.getErrorResponse Samples.formatString
                     Samples.USER_CANCELLED_REQUEST "/users" true initial)
              Samples.signInRefused eq_refl)
    as (w' & Hrun & Hcalls & Hsentry & _); [discriminate|].
  exists w'. split; [exact Hrun|].
  rewrite Hcalls, Hsentry. by split.
Defined.

End CrashReportingSpec.

(** ** The thunk: one request, one cancellation hook *)
Module ThunkSpec.
Import Axios Apisauce Effects SentryConfig APIConfig ThunkInvariant.

Section Thunk.
Context {R : Type} `{!ResponseBound R}.
Context {ErrorResponse : Type}.
Variable AppEnv : AppEnvConst.t.
Variable APIError : Strings.APIError.
Variable getErrorResponse : string -> ErrorResponse.
Variable formatString : string -> Dict -> string.
Variable USER_CANCELLED_REQUEST : string.

Local Abbreviation begin := (payloadCreator_begin AppEnv APIError getErrorResponse formatString
                     USER_CANCELLED_REQUEST).
Local Abbreviation resume := (payloadCreator_resume AppEnv APIError getErrorResponse
                      USER_CANCELLED_REQUEST).
Local Abbreviation step := (APIConfig.step AppEnv APIError getErrorResponse formatString
                    USER_CANCELLED_REQUEST).
Local Abbreviation execute := (APIConfig.execute AppEnv APIError getErrorResponse formatString
                       USER_CANCELLED_REQUEST).
Local Abbreviation capture := (sentryCaptureAPIException AppEnv APIError).
Local Abbreviation hooked := (ThunkInvariant.hooked (R := R) USER_CANCELLED_REQUEST).
Local Abbreviation requestOf := (ThunkInvariant.requestOf formatString).
Local Abbreviation wired := (ThunkInvariant.wired (R := R) USER_CANCELLED_REQUEST).
Local Abbreviation inv :=
  (ThunkInvariant.inv (R := R) (ErrorResponse := ErrorResponse) USER_CANCELLED_REQUEST).

Lemma capture_wiring endpoint response error (w : World R) :
  same_wiring w (capture endpoint response error w).2.
Proof.
  rewrite CrashReportingSpec.sentryCaptureAPIException_run. unfold same_wiring.
  by destruct (AppEnvConst.isDevelopment AppEnv).
Qed.

Lemma resume_returns url toast settled (w : World R) :
  exists result,
    resume url toast settled w = (Returns result, (resume url toast settled w).2) /\
    same_wiring w (resume url toast settled w).2.
Proof.
  destruct settled as [response|error].
  - destruct (ok response) eqn:Hok.
    + rewrite CrashReportingSpec.resume_ok_response by done.
      eexists. split; [reflexivity|]. by unfold same_wiring.
    + rewrite CrashReportingSpec.resume_failed_response by done.
      eexists. split; [reflexivity|]. simpl.
      destruct (decide (message <$> originalError response = Some USER_CANCELLED_REQUEST)).
      * rewrite CrashReportingSpec.processResponse_cancelled by done.
        by unfold same_wiring.
      * rewrite CrashReportingSpec.processResponse_other by done.
        apply capture_wiring.
  - rewrite CrashReportingSpec.resume_thrown.
    eexists. split; [reflexivity|]. apply capture_wiring.
Qed.

Lemma cancel_wiring source reason (w : World R) :
  nextToken (cancel source reason w) = nextToken w /\
  abortListeners (cancel source reason w) = abortListeners w /\
  requests (cancel source reason w) = requests w.
Proof. unfold cancel. by destruct (cancelReasons w !! token source). Qed.

Lemma cancel_reasons source reason (w : World R) k :
  cancelReasons (cancel source reason w) !! k =
  match cancelReasons w !! k with
  | Some r => Some r
  | None => if decide (k = token source) then Some reason else None
  end.
Proof.
  unfold cancel. destruct (cancelReasons w !! token source) as [r0|] eqn:E; simpl.
  - destruct (cancelReasons w !! k) eqn:Ek; [done|].
    case_decide; [subst; congruence|done].
  - destruct (decide (k = token source)) as [->|Hne].
    + by rewrite lookup_insert_eq, E.
    + rewrite lookup_insert_ne by done. by destruct (cancelReasons w !! k).
Qed.

Lemma fireAbort_one l (w : World R) :
  abortListeners w = [l] -> fireAbort w = cancel (cancels l) (reason l) w.
Proof. intros Hl. unfold fireAbort. by rewrite Hl. Qed.

Lemma fireAbort_none (w : World R) : abortListeners w = [] -> fireAbort w = w.
Proof. intros Hl. unfold fireAbort. by rewrite Hl. Qed.


(** *** The invariant of an execution *)

Lemma wired_same_wiring (w w' : World R) :
  same_wiring w w' -> wired w -> wired w'.
Proof.
  intros (Hn & Hc & Hl & Hr) (H1 & H2 & H3 & H4 & H5).
  unfold wired. by rewrite Hn, Hc, Hl, Hr.
Qed.

Lemma wired_fireAbort (w : World R) :
  wired w -> wired (fireAbort w) /\ requests (fireAbort w) = requests w.
Proof.
  intros (H1 & H2 & H3 & H4 & H5).
  rewrite (fireAbort_one _ _ H2). simpl.
  destruct (cancel_wiring source0 USER_CANCELLED_REQUEST w) as (Hn & Hl & Hr).
  split; [|done]. unfold wired. rewrite Hn, Hl, Hr.
  repeat split; try done.
  all: rewrite cancel_reasons in H; destruct (cancelReasons w !! k) as [r'|] eqn:E.
  all: try (injection H as <-; by apply (H3 k r')).
  all: by case_decide; simplify_eq.
Qed.

Lemma wired_started api method url arg :
  wired (log_request (requestOf api method url arg source0) (hooked initial)).
Proof.
  unfold wired. simpl. repeat split; try done.
  by intros q ->%list_elem_of_singleton.
Qed.

Lemma wired_hooked : wired (hooked initial).
Proof.
  unfold wired. simpl. repeat split; try done; try lia.
  intros q Hq. by apply elem_of_nil in Hq.
Qed.

(** *** Steps *)

Lemma step_start_supported t x payload :
  phase x = Idle -> supported t ->
  step t x (Start payload) =
  {| phase := InFlight (default true (shouldShowToast (default noArg payload)));
     world := log_request
                (requestOf (thunkApi t) (thunkMethod t) (thunkUrl t)
                   (default noArg payload) {| token := nextToken (world x) |})
                (hooked (world x)) |}.
Proof.
  intros Hidle Hsup. unfold APIConfig.step. rewrite Hidle.
  by rewrite CrashReportingSpec.begin_supported.
Qed.

Lemma step_start_unsupported t x payload :
  phase x = Idle -> ~ supported t ->
  step t x (Start payload) =
  {| phase := Done (Returns (Rejected
                (handleCatchError APIError getErrorResponse notAFunction)));
     world := (capture (Some (thunkUrl t)) None notAFunction (hooked (world x))).2 |}.
Proof.
  intros Hidle Hsup. unfold APIConfig.step. rewrite Hidle.
  by rewrite CrashReportingSpec.begin_unsupported.
Qed.

Lemma step_settle t x toast settled :
  phase x = InFlight toast ->
  exists result,
    resume (thunkUrl t) toast settled (world x)
      = (Returns result, (step t x (Settle settled)).(world)) /\
    phase (step t x (Settle settled)) = Done (Returns result) /\
    same_wiring (world x) (world (step t x (Settle settled))).
Proof.
  intros Hfly. unfold APIConfig.step. rewrite Hfly.
  destruct (resume_returns (thunkUrl t) toast settled (world x)) as (result & Hrun & Hwire).
  exists result. rewrite Hrun. by simpl.
Qed.

Lemma step_ignored_start t x payload :
  phase x <> Idle -> step t x (Start payload) = x.
Proof. intros Hphase. unfold APIConfig.step. by destruct (phase x). Qed.

Lemma step_ignored_settle t x settled :
  (forall toast, phase x <> InFlight toast) -> step t x (Settle settled) = x.
Proof.
  intros Hphase. unfold APIConfig.step.
  destruct (phase x) as [|toast|] eqn:E; try done. by destruct (Hphase toast).
Qed.

Lemma step_abort t x :
  step t x Abort = {| phase := phase x; world := fireAbort (world x) |}.
Proof. unfold APIConfig.step. by destruct (phase x). Qed.

Lemma inv_step t x e : inv t x -> inv t (step t x e).
Proof.
  intros Hinv. destruct e as [payload| |settled].
  - destruct (phase x) eqn:Hphase.
    + unfold inv in Hinv. rewrite Hphase in Hinv.
      destruct (decide (supported t)) as [Hsup|Hsup].
      * rewrite step_start_supported by done. rewrite Hinv. unfold inv. simpl.
        split; [apply wired_started|done].
      * rewrite step_start_unsupported by done. rewrite Hinv. unfold inv. simpl.
        split; [|done].
        eapply wired_same_wiring; [apply capture_wiring|apply wired_hooked].
    + rewrite step_ignored_start; [done|by rewrite Hphase].
    + rewrite step_ignored_start; [done|by rewrite Hphase].
  - rewrite step_abort. unfold inv in *. simpl.
    destruct (phase x).
    + rewrite Hinv. by apply fireAbort_none.
    + destruct Hinv as [Hw Hlen].
      destruct (wired_fireAbort _ Hw) as [Hw' Hr]. by rewrite Hr.
    + destruct Hinv as [Hw Hlen].
      destruct (wired_fireAbort _ Hw) as [Hw' Hr]. by rewrite Hr.
  - destruct (phase x) as [|toast|outcome] eqn:Hphase.
    + rewrite step_ignored_settle; [done|by rewrite Hphase].
    + destruct (step_settle t x toast settled Hphase) as (result & _ & Hdone & Hwire).
      unfold inv in *. rewrite Hdone. rewrite Hphase in Hinv.
      destruct Hinv as [Hw Hlen]. split.
      * by eapply wired_same_wiring.
      * intros _. destruct Hwire as (_ & _ & _ & ->). done.
    + rewrite step_ignored_settle; [done|by rewrite Hphase].
Qed.

Lemma execute_cons t x e events :
  execute t x (e :: events) = execute t (step t x e) events.
Proof. reflexivity. Qed.

Lemma inv_execute t x events : inv t x -> inv t (execute t x events).
Proof.
  revert x. induction events as [|e events IH]; intros x Hinv; [done|].
  rewrite execute_cons. apply IH. by apply inv_step.
Qed.

Lemma inv_fresh t : inv t fresh.
Proof. reflexivity. Qed.





Lemma step_keeps_reasons t x e :
  e <> Abort -> cancelReasons (world (step t x e)) = cancelReasons (world x).
Proof.
  intros Hne. destruct e as [payload| |settled]; [| done |].
  - destruct (phase x) eqn:Hphase.
    + destruct (decide (supported t)) as [Hsup|Hsup].
      * by rewrite step_start_supported.
      * rewrite step_start_unsupported by done. simpl.
        by destruct (capture_wiring (Some (thunkUrl t)) None notAFunction
                       (hooked (world x))) as (_ & -> & _).
    + rewrite step_ignored_start; [done|by rewrite Hphase].
    + rewrite step_ignored_start; [done|by rewrite Hphase].
  - destruct (phase x) as [|toast|outcome] eqn:Hphase.
    + rewrite step_ignored_settle; [done|by rewrite Hphase].
    + by destruct (step_settle t x toast settled Hphase) as (_ & _ & _ & _ & -> & _).
    + rewrite step_ignored_settle; [done|by rewrite Hphase].
Qed.

Lemma reasons_need_abort t events x k r :
  cancelReasons (world (execute t x events)) !! k = Some r ->
  cancelReasons (world x) !! k = Some r \/ Abort ∈ events.
Proof.
  revert x. induction events as [|e events IH]; intros x Hk; [by left|].
  rewrite execute_cons in Hk. destruct (IH _ Hk) as [Hstep|Hlater].
  - destruct e as [payload| |settled].
    + left. by rewrite step_keeps_reasons in Hstep.
    + right. apply elem_of_cons. by left.
    + left. by rewrite step_keeps_reasons in Hstep.
  - right. apply elem_of_cons. by right.
Qed.

Lemma started_wired t events :
  phase (execute t fresh events) <> Idle -> wired (world (execute t fresh events)).
Proof.
  intros Hphase. pose proof (inv_execute t fresh events (inv_fresh t)) as Hinv.
  unfold inv in Hinv. destruct (phase (execute t fresh events)); [done| |]; by destruct Hinv.
Qed.

Lemma idle_initial t events :
  phase (execute t fresh events) = Idle -> world (execute t fresh events) = initial.
Proof.
  intros Hphase. pose proof (inv_execute t fresh events (inv_fresh t)) as Hinv.
  unfold inv in Hinv. by rewrite Hphase in Hinv.
Qed.

(** C2.  In any execution of a thunk: while the request is in flight there
    is one abort listener, it cancels the source whose token is in the
    [cancelToken] of the one request made, and when the signal fires the
    token has the reason [USER_CANCELLED_REQUEST]; every request made
    carries the token of that source, whatever settings the caller passed;
    and a token has a reason only after the abort signal fired, and then
    this one. *)
Theorem abort_cancels_request_token (t : AsyncThunk) (events : list Event) :
  let x := execute t fresh events in
  (forall toast, phase x = InFlight toast ->
     exists source request,
       abortListeners (world x)
         = [{| cancels := source; reason := USER_CANCELLED_REQUEST |}] /\
       requests (world x) = [request] /\
       cancelToken (settings request) = Some (token source) /\
       cancelReasons (world (step t x Abort)) !! token source
         = Some USER_CANCELLED_REQUEST) /\
  (forall request, request ∈ requests (world x) ->
     exists source,
       abortListeners (world x)
         = [{| cancels := source; reason := USER_CANCELLED_REQUEST |}] /\
       cancelToken (settings request) = Some (token source)) /\
  (forall k why, cancelReasons (world x) !! k = Some why ->
     Abort ∈ events /\ why = USER_CANCELLED_REQUEST /\
     exists source,
       abortListeners (world x)
         = [{| cancels := source; reason := USER_CANCELLED_REQUEST |}] /\
       k = token source).
Proof.
  intros x. subst x. split; [|split].
  - intros toast Hfly.
    pose proof (inv_execute t fresh events (inv_fresh t)) as Hinv.
    unfold inv in Hinv. rewrite Hfly in Hinv.
    destruct Hinv as [(Hn & Hl & Hc & Hq & _) Hlen].
    destruct (requests (world (execute t fresh events))) as [|request [|]] eqn:Hreq;
      try done.
    exists source0, request. repeat split; try done.
    + apply Hq. by apply list_elem_of_singleton.
    + rewrite step_abort. simpl. rewrite (fireAbort_one _ _ Hl). simpl.
      rewrite cancel_reasons. simpl.
      destruct (cancelReasons (world (execute t fresh events)) !! 0) as [r|] eqn:E.
      * by destruct (Hc 0 r E) as [_ ->].
      * done.
  - intros request Hin.
    assert (phase (execute t fresh events) <> Idle) as Hphase.
    { intros Hidle. rewrite (idle_initial _ _ Hidle) in Hin. by apply elem_of_nil in Hin. }
    destruct (started_wired t events Hphase) as (_ & Hl & _ & Hq & _).
    exists source0. split; [done|]. by apply Hq.
  - intros k why Hk.
    assert (phase (execute t fresh events) <> Idle) as Hphase.
    { intros Hidle. rewrite (idle_initial _ _ Hidle) in Hk. simpl in Hk.
      by rewrite lookup_empty in Hk. }
    destruct (started_wired t events Hphase) as (_ & Hl & Hc & _).
    destruct (Hc k why Hk) as [-> ->].
    split; [|split; [done|by exists source0]].
    destruct (reasons_need_abort t events fresh 0 _ Hk) as [Hnone|Habort]; [|done].
    simpl in Hnone. by rewrite lookup_empty in Hnone.
Qed.


End Thunk.

Local Abbreviation run :=
  (APIConfig.execute (R := UserResponse) Samples.production Samples.APIError
     Samples.getErrorResponse Samples.formatString Samples.USER_CANCELLED_REQUEST).
Local Abbreviation thunk := (createAsyncThunkWithCancelToken Samples.production).



Lemma abort_cancels_witness :
  let t := thunk "auth/signIn" "POST" "/signin" None in
  let payload :=
    {| data := Js.Obj [("email", Js.Str "a@b.c")]; params := None;
       setting := Some {| Axios.headers := None; Axios.params := None;
                          cancelToken := Some 7; rest := [] |};
       paths := None; shouldShowToast := None |} in
  exists source request,
    requests (world (run t fresh [Start (Some payload)])) = [request] /\
    cancelToken (settings request) = Some (token source) /\
    cancelReasons (world (run t fresh [Start (Some payload); Abort])) !! token source
      = Some Samples.USER_CANCELLED_REQUEST.
Proof.
  intros t payload.
  destruct (proj1 (abort_cancels_request_token Samples.production Samples.APIError
                     Samples.getErrorResponse Samples.formatString
                     Samples.USER_CANCELLED_REQUEST t [Start (Some payload)])
              true eq_refl)
    as (source & request & _ & Hreq & Htoken & Hreason).
  exists source, request. by repeat split.
Defined.

End ThunkSpec.

(** ** Strings *)
Module JsStringSpec.
Import JsString.

Lemma app_cons (c : ascii) (s t : string) : String c s +:+ t = String c (s +:+ t).
Proof. reflexivity. Qed.

Lemma app_nil_l (s : string) : EmptyString +:+ s = s.
Proof. reflexivity. Qed.

Lemma app_nil_r (s : string) : s +:+ EmptyString = s.
Proof. induction s as [|c s IH]; [done|]. by rewrite app_cons, IH. Qed.

Lemma app_assoc (a b c : string) : (a +:+ b) +:+ c = a +:+ b +:+ c.
Proof. induction a as [|x a IH]; [done|]. by rewrite !app_cons, IH. Qed.

Lemma prefix_nil (h : string) : String.prefix EmptyString h = true.
Proof. by destruct h. Qed.

Lemma prefix_cons (c c' : ascii) (n h : string) :
  String.prefix (String c n) (String c' h)
  = if ascii_dec c c' then String.prefix n h else false.
Proof. reflexivity. Qed.

Lemma prefix_spec (n h : string) :
  String.prefix n h = true <-> exists b, h = n +:+ b.
Proof.
  revert h. induction n as [|c n IH]; intros h.
  - rewrite prefix_nil. split; [intros _; exists h; reflexivity|done].
  - destruct h as [|c' h].
    + split; [done|]. intros [b Hb]. by rewrite app_cons in Hb.
    + rewrite prefix_cons. destruct (ascii_dec c c') as [->|Hne].
      * rewrite IH. split; intros [b Hb]; exists b.
        -- by rewrite app_cons, Hb.
        -- rewrite app_cons in Hb. by injection Hb.
      * split; [done|]. intros [b Hb]. rewrite app_cons in Hb.
        injection Hb as -> _. done.
Qed.

Lemma prefix_app (n b : string) : String.prefix n (n +:+ b) = true.
Proof. apply prefix_spec. by exists b. Qed.

(** [includes] finds the needle exactly when the haystack has it as a
    contiguous part. *)
Lemma includes_nil (n : string) :
  includes n EmptyString = String.prefix n EmptyString.
Proof. simpl. by rewrite orb_false_r. Qed.

Lemma includes_cons (n : string) (c : ascii) (h : string) :
  includes n (String c h) = String.prefix n (String c h) || includes n h.
Proof. reflexivity. Qed.

Lemma includes_spec (n h : string) :
  includes n h = true <-> exists a b, h = a +:+ n +:+ b.
Proof.
  induction h as [|c h IH].
  - rewrite includes_nil, prefix_spec. split.
    + intros [b Hb]. by exists EmptyString, b.
    + intros (a & b & Hab). destruct a as [|c a]; [by exists b|].
      by rewrite app_cons in Hab.
  - rewrite includes_cons, orb_true_iff, prefix_spec, IH. split.
    + intros [[b Hb]|(a & b & Hab)].
      * by exists EmptyString, b.
      * exists (String c a), b. by rewrite app_cons, Hab.
    + intros (a & b & Hab). destruct a as [|c' a].
      * left. by exists b.
      * right. rewrite app_cons in Hab. injection Hab as _ ->. by exists a, b.
Qed.

Lemma includes_app (n a b : string) : includes n (a +:+ n +:+ b) = true.
Proof. apply includes_spec. by exists a, b. Qed.

Lemma includes_within (n a h b : string) :
  includes n h = true -> includes n (a +:+ h +:+ b) = true.
Proof.
  rewrite !includes_spec. intros (x & y & ->).
  exists (a +:+ x), (y +:+ b). by rewrite !app_assoc.
Qed.

End JsStringSpec.

(** ** The packager host *)
Module ReactotronSpec.
Import JsString JsStringSpec Reactotron.

Lemma split_aux_skip sep t cur s :
  split_aux sep (String.length t) cur (t +:+ s) = split_aux sep 0 cur s.
Proof.
  induction t as [|c t IH]; [done|]. rewrite app_cons. simpl. apply IH.
Qed.

Lemma split_aux_hit c sep cur s :
  split_aux (String c sep) 0 cur (String c sep +:+ s)
  = cur :: split_aux (String c sep) 0 EmptyString s.
Proof.
  assert (String.prefix (String c sep) (String c (sep +:+ s)) = true) as Hhit.
  { rewrite <- app_cons. apply prefix_app. }
  rewrite app_cons. cbn [split_aux]. rewrite Hhit.
  cbn [String.length]. rewrite Nat.sub_1_r. cbn [Nat.pred].
  by rewrite split_aux_skip.
Qed.

Lemma split_aux_miss c sep a cur s :
  free_of c a = true ->
  split_aux (String c sep) 0 cur (a +:+ s) = split_aux (String c sep) 0 (cur +:+ a) s.
Proof.
  revert cur. induction a as [|x a IH]; intros cur Hfree.
  - by rewrite app_nil_l, app_nil_r.
  - simpl in Hfree. apply andb_true_iff in Hfree as [Hx Hfree].
    rewrite app_cons. cbn [split_aux]. rewrite prefix_cons.
    destruct (ascii_dec c x) as [->|Hne].
    + by rewrite Ascii.eqb_refl in Hx.
    + rewrite IH by done. by rewrite app_assoc.
Qed.

(** The first piece of a split is there, and it is the piece being read
    followed by a part of what is still to read. *)
Lemma split_aux_head sep cur s :
  exists z w, split_aux sep 0 cur s !! 0%nat = Some (cur +:+ z) /\ s = z +:+ w.
Proof.
  revert cur. induction s as [|c s IH]; intros cur.
  - exists EmptyString, EmptyString. by rewrite app_nil_r.
  - cbn [split_aux]. destruct (String.prefix sep (String c s)).
    + exists EmptyString, (String c s). by rewrite app_nil_r.
    + destruct (IH (cur +:+ String c EmptyString)) as (z & w & Hz & ->).
      exists (String c z), w. split; [|done].
      by rewrite Hz, app_assoc.
Qed.

Lemma first_piece_before_colon host z :
  free_of ":" host = true ->
  (z = EmptyString \/ exists z', z = ":" +:+ z') ->
  split_aux ":" 0 EmptyString (host +:+ z) !! 0%nat = Some host.
Proof.
  intros Hfree Hz.
  rewrite (split_aux_miss ":"%char EmptyString host) by done. rewrite app_nil_l.
  destruct Hz as [->|[z' ->]]; [done|].
  by rewrite (split_aux_hit ":"%char EmptyString).
Qed.

(** X1.  Of a script URL [scheme://host] that may go on with [:port...], the
    packager host is [host], and [localhost] when [host] is empty; the
    scheme and the host are free of colons.  Without the [__DEV__] flag,
    without a script URL, and for a URL without a colon, it is
    [localhost]. *)
Theorem packagerHostname_host (scheme host tail : string) :
  free_of ":" scheme = true ->
  free_of ":" host = true ->
  (tail = EmptyString \/ exists t, tail = ":" +:+ t) ->
  packagerHostname true (Some (scheme +:+ "://" +:+ host +:+ tail))
    = (if String.eqb host EmptyString then "localhost" else host) /\
  (forall scriptURL, packagerHostname false scriptURL = "localhost") /\
  packagerHostname true None = "localhost" /\
  packagerHostname true (Some scheme) = "localhost".
Proof.
  intros Hscheme Hhost Htail. repeat split.
  - unfold packagerHostname. cbn [mbind option_bind].
    unfold split.
    rewrite (split_aux_miss ":"%char "//" scheme) by done. rewrite app_nil_l.
    rewrite (split_aux_hit ":"%char "//").
    rewrite lookup_cons_ne_0 by done. cbn [Nat.pred].
    rewrite (split_aux_miss ":"%char "//" host) by done. rewrite app_nil_l.
    destruct (split_aux_head "://" host tail) as (z2 & w2 & Hz2 & Htl).
    rewrite Hz2. cbn [mbind option_bind].
    rewrite first_piece_before_colon; [done|done|].
    destruct z2 as [|c z2]; [by left|right].
    destruct Htail as [->|[t ->]].
    + by destruct z2.
    + rewrite !app_cons in Htl. injection Htl as <- _. by exists z2.
  - unfold packagerHostname. cbn [mbind option_bind]. unfold split.
    pose proof (split_aux_miss ":"%char "//" scheme EmptyString EmptyString Hscheme) as H.
    rewrite app_nil_r, app_nil_l in H. by rewrite H.
Qed.

Lemma packagerHostname_host_witness :
  packagerHostname true (Some "http://192.168.1.20:8081/index.bundle?platform=ios")
    = "192.168.1.20" /\
  packagerHostname true (Some "http://metro.local") = "metro.local" /\
  packagerHostname true (Some "file://") = "localhost".
Proof.
  split; [|split].
  - apply (proj1 (packagerHostname_host "http" "192.168.1.20"
                    ":8081/index.bundle?platform=ios" eq_refl eq_refl
                    (or_intror (ex_intro _ "8081/index.bundle?platform=ios" eq_refl)))).
  - apply (proj1 (packagerHostname_host "http" "metro.local" EmptyString
                    eq_refl eq_refl (or_introl eq_refl))).
  - apply (proj1 (packagerHostname_host "file" EmptyString EmptyString
                    eq_refl eq_refl (or_introl eq_refl))).
Defined.

End ReactotronSpec.

(** ** Sentry initialisation and the store enhancers *)
Module SentryInitSpec.
Import Axios Effects SentryConfig SentryInit JsString JsStringSpec.

(** X2.  [Sentry.init] is called exactly when the bundle is not a [__DEV__]
    bundle, [EXPO_PUBLIC_ENVIRONMENT] is set to something other than
    [development], and [EXPO_PUBLIC_SENTRY_URL] is set to something other
    than the empty text and [NA]; and whenever it is called, its [debug]
    option is off and its [dsn] and [environment] are those two
    variables. *)
Theorem init_only_outside_development
    (DEV : bool) (ENVIRONMENT SENTRY_URL API_URL : option string) :
  let AppEnv := AppEnvConst.make DEV ENVIRONMENT SENTRY_URL API_URL in
  (is_Some (init AppEnv) <->
     DEV = false /\
     (exists e, ENVIRONMENT = Some e /\ e <> "development") /\
     (exists u, SENTRY_URL = Some u /\ u <> EmptyString /\ u <> "NA")) /\
  (forall o, init AppEnv = Some o ->
     debug o = false /\
     SENTRY_URL = Some (dsn o) /\
     ENVIRONMENT = Some (environment o)).
Proof.
  intros AppEnv. subst AppEnv. unfold init, AppEnvConst.make. simpl.
  destruct DEV; simpl.
  { split; [|done]. split; [by intros [? ?]|by intros [? _]]. }
  destruct ENVIRONMENT as [e|]; simpl.
  2:{ split; [|done]. split; [by intros [? ?]|by intros (_ & (e & ? & _) & _)]. }
  destruct (String.eqb_spec e "development") as [->|Hdev]; simpl.
  { split; [|done]. split; [by intros [? ?]|]. by intros (_ & (e & [= <-] & ?) & _). }
  destruct SENTRY_URL as [u|]; simpl.
  2:{ split; [|done]. split; [by intros [? ?]|by intros (_ & _ & (u & ? & _))]. }
  destruct (String.eqb_spec u EmptyString) as [->|Hempty]; simpl.
  { split; [|done]. split; [by intros [? ?]|]. by intros (_ & _ & (u & [= <-] & ? & _)). }
  destruct (String.eqb_spec u "NA") as [->|Hna]; simpl.
  { split; [|done]. split; [by intros [? ?]|]. by intros (_ & _ & (u & [= <-] & _ & ?)). }
  split.
  - split; [intros _|by eexists]. split; [done|]. split; [by exists e|by exists u].
  - by intros o [= <-].
Qed.

Lemma beforeSend_includes (error : ErrorObject) :
  beforeSend (Some error) = negb (includes "Network request failed" (message error)).
Proof. unfold beforeSend, ignoredErrors. simpl. by rewrite orb_false_r. Qed.

(** X3.  The exception that [sentryCaptureAPIException] hands to the SDK is
    held back by [beforeSend] exactly when the message of the error has
    the text [Network request failed] in it, and so is an exception given
    to [sentryCaptureException]. *)
Theorem network_failures_held_back {R : Type} (APIError : Strings.APIError)
    (endpoint : option string) (response : option (Apisauce.ApiResponse R))
    (error : unknown) :
  (beforeSend (capturedException (reported APIError endpoint response error)) = false
     <-> exists a b,
           errorMessageOf APIError error = a +:+ "Network request failed" +:+ b) /\
  (forall e : ErrorObject,
     beforeSend (capturedException (CaptureError (R := R) e)) = false
     <-> exists a b, message e = a +:+ "Network request failed" +:+ b).
Proof.
  split.
  - unfold reported, capturedException. rewrite beforeSend_includes. simpl.
    by rewrite negb_false_iff, includes_spec.
  - intros e. unfold capturedException. rewrite beforeSend_includes.
    by rewrite negb_false_iff, includes_spec.
Qed.

End SentryInitSpec.

Module StoreSpec.
Import Reactotron Store.

(** X4.  The store gets the Reactotron enhancer exactly in a [__DEV__] bundle:
    the development environment alone does not install it, and a
    [__DEV__] bundle installs it whatever the environment says. *)
Theorem enhancers_follow_dev_flag
    (DEV : bool) (ENVIRONMENT SENTRY_URL API_URL : option string) :
  enhancers DEV (AppEnvConst.make DEV ENVIRONMENT SENTRY_URL API_URL)
  = if DEV then [ReactotronEnhancer] else [].
Proof.
  unfold enhancers, getReactotronEnhancer, AppEnvConst.make. simpl.
  destruct DEV; simpl; [done|]. by destruct (String.eqb _ _).
Qed.

End StoreSpec.

(** ** The sign-in form *)
Module SigninFormSpec.
Import SigninForm.





End SigninFormSpec.

(** ** The Android signing plugin *)
Module CustomSigningSpec.
Import JsString JsStringSpec CustomSigning.

Lemma replace_first_eq pattern replacement s :
  replace_first pattern replacement s =
  match match_here pattern s with
  | Some rest => replacement +:+ rest
  | None =>
      match s with
      | EmptyString => EmptyString
      | String c rest => String c (replace_first pattern replacement rest)
      end
  end.
Proof. by destruct s. Qed.

(** A replacement either changes nothing or brings in what the
    replacement text has. *)
Lemma replace_first_same_or_includes pattern replacement needle s :
  includes needle replacement = true ->
  replace_first pattern replacement s = s \/
  includes needle (replace_first pattern replacement s) = true.
Proof.
  intros Hneedle. induction s as [|c s IH]; rewrite replace_first_eq.
  - destruct (match_here pattern EmptyString) as [rest|]; [right|by left].
    apply includes_spec in Hneedle as (a & b & ->). apply includes_spec.
    exists a, (b +:+ rest). by rewrite !app_assoc.
  - destruct (match_here pattern (String c s)) as [rest|].
    + right. apply includes_spec in Hneedle as (a & b & ->). apply includes_spec.
      exists a, (b +:+ rest). by rewrite !app_assoc.
    + destruct IH as [->|IH]; [by left|right].
      rewrite includes_cons, IH. apply orb_true_r.
Qed.

Lemma replace_first_at pattern replacement pre rest post :
  unmatched pattern pre rest = true ->
  match_here pattern rest = Some post ->
  replace_first pattern replacement (pre +:+ rest) = pre +:+ replacement +:+ post.
Proof.
  intros Hpre Hhere. induction pre as [|c pre IH].
  - rewrite !app_nil_l, replace_first_eq. by rewrite Hhere.
  - simpl in Hpre. rewrite replace_first_eq.
    destruct (match_here pattern (String c pre +:+ rest)); [done|].
    rewrite !app_cons. by rewrite IH.
Qed.

Lemma replace_first_nowhere pattern replacement s :
  pattern <> [] ->
  unmatched pattern s EmptyString = true ->
  replace_first pattern replacement s = s.
Proof.
  intros Hpat Hs. induction s as [|c s IH]; rewrite replace_first_eq.
  - by destruct pattern.
  - simpl in Hs. rewrite app_cons, app_nil_r in Hs.
    destruct (match_here pattern (String c s)); [done|]. by rewrite IH.
Qed.

Lemma applyPlugin_matches_line post :
  match_here applyPlugin (applyPluginLine +:+ post) = Some post.
Proof. reflexivity. Qed.

Lemma replacement_includes_applyFrom :
  includes applyFrom (applyPluginLine +:+ lf +:+ applyFrom) = true.
Proof. reflexivity. Qed.

Section Plugin.
Variable join : list string -> string.

Local Abbreviation signing := (signingFilePath join).
Local Abbreviation gradle := (buildGradlePath join).
Local Abbreviation modify := (modifyGradleFiles join).
Local Abbreviation modifyIn := (modifyGradleFilesIn join).

Lemma modify_signing root fs :
  signing root <> gradle root ->
  files (modify root fs) !! signing root = Some signingConfigContent.
Proof.
  intros Hne. unfold modifyGradleFiles.
  destruct (<[signing root:=_]> fs !! gradle root) as [c|]; simpl.
  - destruct (negb _); simpl.
    + rewrite lookup_insert_ne by done. apply lookup_insert_eq.
    + apply lookup_insert_eq.
  - apply lookup_insert_eq.
Qed.

Lemma modify_other root fs path :
  path <> signing root -> path <> gradle root ->
  files (modify root fs) !! path = fs !! path.
Proof.
  intros Hs Hg. unfold modifyGradleFiles.
  destruct (<[signing root:=_]> fs !! gradle root) as [c|]; simpl.
  - destruct (negb _); simpl; by rewrite !lookup_insert_ne.
  - by rewrite lookup_insert_ne.
Qed.

Lemma modify_gradle root fs c :
  signing root <> gradle root ->
  fs !! gradle root = Some c ->
  completed (modify root fs) = true /\
  files (modify root fs) !! gradle root = Some (nextGradle c).
Proof.
  intros Hne Hc. unfold modifyGradleFiles, nextGradle. cbv zeta.
  rewrite lookup_insert_ne by done. rewrite Hc.
  destruct (includes applyFrom c); simpl.
  - by rewrite lookup_insert_ne.
  - by rewrite lookup_insert_eq.
Qed.

Lemma nextGradle_idempotent c : nextGradle (nextGradle c) = nextGradle c.
Proof.
  unfold nextGradle at 2. destruct (includes applyFrom c) eqn:Hinc.
  - unfold nextGradle. by rewrite Hinc.
  - destruct (replace_first_same_or_includes applyPlugin
                (applyPluginLine +:+ lf +:+ applyFrom) applyFrom c
                replacement_includes_applyFrom) as [Hsame|Hnow].
    + rewrite Hsame. unfold nextGradle. by rewrite Hinc.
    + unfold nextGradle. by rewrite Hnow, Hinc.
Qed.

(** X6.  Running the plugin a second time changes no file: the signing script
    is written with the same text, and [build.gradle], once it has the
    [apply from] line, is left alone.  No file but these two is ever
    written. *)
Theorem modifyGradleFiles_idempotent (root : string) (fs : gmap string string) :
  signing root <> gradle root ->
  is_Some (fs !! gradle root) ->
  completed (modify root (files (modify root fs))) = true /\
  files (modify root (files (modify root fs))) = files (modify root fs) /\
  (forall path, path <> signing root -> path <> gradle root ->
     files (modify root fs) !! path = fs !! path).
Proof.
  intros Hne [c Hc].
  destruct (modify_gradle root fs c Hne Hc) as [_ Hg1].
  destruct (modify_gradle root _ _ Hne Hg1) as [Hdone Hg2].
  split; [done|]. split; [|intros path; apply modify_other].
  apply map_eq. intros path.
  destruct (decide (path = signing root)) as [->|Hs].
  { by rewrite !modify_signing. }
  destruct (decide (path = gradle root)) as [->|Hg].
  { by rewrite Hg2, Hg1, nextGradle_idempotent. }
  by rewrite modify_other.
Qed.

(** X7.  Without a [build.gradle] the run does not complete.  When the
    directory [android/app] exists, the signing script it wrote before
    looking stays behind, and its creation was logged; when the directory
    does not exist, nothing is written and nothing is logged. *)
Theorem modifyGradleFiles_without_build_gradle
    (dirs : gset string) (root : string) (fs : gmap string string) :
  signing root <> gradle root ->
  fs !! gradle root = None ->
  completed (modifyIn dirs root fs) = false /\
  (androidAppPath join root ∈ dirs ->
     files (modifyIn dirs root fs) = <[signing root := signingConfigContent]> fs /\
     console (modifyIn dirs root fs) = ["✓ Created custom-signing.gradle"]) /\
  (androidAppPath join root ∉ dirs ->
     files (modifyIn dirs root fs) = fs /\
     console (modifyIn dirs root fs) = []).
Proof.
  intros Hne Hnone.
  assert (Hrun : modify root fs =
            {| completed := false;
               files := <[signing root := signingConfigContent]> fs;
               console := ["✓ Created custom-signing.gradle"] |}).
  { unfold modifyGradleFiles. cbv zeta.
    rewrite lookup_insert_ne by done. by rewrite Hnone. }
  unfold modifyGradleFilesIn.
  destruct (decide (androidAppPath join root ∈ dirs)) as [Hdir|Hdir].
  - rewrite Hrun. simpl. by repeat split.
  - simpl. by repeat split.
Qed.

(** X8.  In a [build.gradle] of ASCII text without the [apply from] line,
    the leftmost text that the pattern matches is replaced by the plugin
    line and, on the next line, the [apply from] line; what stands before
    and after it stays. *)
Theorem modifyGradleFiles_inserts_after_plugin
    (root : string) (fs : gmap string string) (pre line post : string) :
  signing root <> gradle root ->
  fs !! gradle root = Some (pre +:+ line +:+ post) ->
  ascii_only (pre +:+ line +:+ post) = true ->
  includes applyFrom (pre +:+ line +:+ post) = false ->
  unmatched applyPlugin pre (line +:+ post) = true ->
  match_here applyPlugin (line +:+ post) = Some post ->
  files (modify root fs) !! gradle root
  = Some (pre +:+ applyPluginLine +:+ lf +:+ applyFrom +:+ post).
Proof.
  intros Hne Hc _ Hinc Hpre Hline.
  destruct (modify_gradle root fs _ Hne Hc) as [_ ->].
  unfold nextGradle. rewrite Hinc.
  rewrite (replace_first_at _ _ pre (line +:+ post) post Hpre Hline).
  by rewrite !app_assoc.
Qed.

(** X9.  A [build.gradle] of ASCII text in which the pattern matches
    nowhere keeps its content, and the run still reports that it modified
    the file. *)
Theorem modifyGradleFiles_reports_unmodified
    (root : string) (fs : gmap string string) (c : string) :
  signing root <> gradle root ->
  fs !! gradle root = Some c ->
  ascii_only c = true ->
  includes applyFrom c = false ->
  unmatched applyPlugin c EmptyString = true ->
  files (modify root fs) !! gradle root = Some c /\
  console (modify root fs)
  = ["✓ Created custom-signing.gradle";
     "Modified build.gradle to include custom-signing.gradle"].
Proof.
  intros Hne Hc _ Hinc Hnowhere. split.
  - destruct (modify_gradle root fs _ Hne Hc) as [_ ->].
    unfold nextGradle. rewrite Hinc. by rewrite replace_first_nowhere.
  - unfold modifyGradleFiles. cbv zeta.
    rewrite lookup_insert_ne by done. by rewrite Hc, Hinc.
Qed.

End Plugin.

Lemma modifyGradleFiles_idempotent_witness :
  files (modifyGradleFiles slashes "app"
           (files (modifyGradleFiles slashes "app" sampleProject)))
  = files (modifyGradleFiles slashes "app" sampleProject).
Proof.
  apply (modifyGradleFiles_idempotent slashes "app" sampleProject);
    [discriminate|by eexists].
Defined.

Lemma modifyGradleFiles_without_build_gradle_witness :
  files (modifyGradleFilesIn slashes {[ "app/android/app" ]} "app" ∅)
  = {[ "app/android/app/custom-signing.gradle" := signingConfigContent ]} /\
  files (modifyGradleFilesIn slashes ∅ "app" ∅) = ∅.
Proof.
  split.
  - apply (modifyGradleFiles_without_build_gradle slashes {[ "app/android/app" ]} "app" ∅);
      [discriminate|apply lookup_empty|by apply elem_of_singleton].
  - apply (modifyGradleFiles_without_build_gradle slashes ∅ "app" ∅);
      [discriminate|apply lookup_empty|apply not_elem_of_empty].
Defined.

Lemma modifyGradleFiles_inserts_witness :
  files (modifyGradleFiles slashes "app" sampleProject) !! "app/android/app/build.gradle"
  = Some ("// app module" +:+ lf +:+ applyPluginLine +:+ lf +:+ applyFrom
            +:+ lf +:+ "android { }").
Proof.
  apply (modifyGradleFiles_inserts_after_plugin slashes "app" sampleProject
           ("// app module" +:+ lf) applyPluginLine (lf +:+ "android { }"));
    [discriminate|reflexivity..].
Defined.

Lemma modifyGradleFiles_reports_unmodified_witness :
  files (modifyGradleFiles slashes "lib"
           {[ "lib/android/app/build.gradle" := "apply plugin: 'com.android.library'" ]})
    !! "lib/android/app/build.gradle"
  = Some "apply plugin: 'com.android.library'".
Proof.
  apply (modifyGradleFiles_reports_unmodified slashes "lib"
           {[ "lib/android/app/build.gradle" := "apply plugin: 'com.android.library'" ]});
    [discriminate|reflexivity..].
Defined.

End CustomSigningSpec.

(** ** More on the build scripts *)
Module BuildScriptsMore.
Import CopyEnv IosBuild BuildScriptsSpec.

Lemma touch_touch f fs : touch f (touch f fs) = touch f fs.
Proof.
  unfold touch at 1. by rewrite touch_lookup.
Qed.

Lemma touch_cp src dst fs : touch dst (cp src dst (touch dst fs)) = cp src dst (touch dst fs).
Proof.
  unfold touch at 1. unfold cp. destruct (touch dst fs !! src) as [content|].
  - by rewrite lookup_insert_eq.
  - by rewrite touch_lookup.
Qed.

Lemma cp_cp src dst fs : src <> dst -> cp src dst (cp src dst fs) = cp src dst fs.
Proof.
  intros Hne. unfold cp. destruct (fs !! src) as [content|] eqn:E.
  - rewrite lookup_insert_ne, E by done. apply insert_insert_eq.
  - by rewrite E.
Qed.

(** X10.  Running the environment script again with the same argument leaves
    the files as the first run left them, with the same exit status. *)
Theorem copy_env_idempotent (args : list string) (fs : gmap string string) :
  files (copy_env args (files (copy_env args fs))) = files (copy_env args fs) /\
  status (copy_env args (files (copy_env args fs))) = status (copy_env args fs).
Proof.
  split.
  - rewrite !copy_env_files.
    destruct (env_file_of (Sh.positional 0 args)) as [src|] eqn:Hsel.
    + rewrite touch_cp. apply cp_cp. by eapply env_file_of_not_env.
    + apply touch_touch.
  - unfold copy_env. destruct (env_file_of (Sh.positional 0 args));
      by destruct (fs !! ".env"), (files _ !! ".env").
Qed.

(** X11.  When the selected [.env.*] file does not exist, the script still
    exits with status 0 and says that [.env] was updated; [.env] keeps
    its content, or is the empty file the script created. *)
Theorem copy_env_reports_success_without_source
    (args : list string) (fs : gmap string string) (src : string) :
  env_file_of (Sh.positional 0 args) = Some src ->
  fs !! src = None ->
  status (copy_env args fs) = 0 /\
  files (copy_env args fs) !! ".env" = Some (default EmptyString (fs !! ".env")) /\
  last (stdout (copy_env args fs))
  = Some (".env file has been updated with " +:+ Sh.positional 0 args
            +:+ " environment variables.").
Proof.
  intros Hsel Hsrc. split; [|split].
  - unfold copy_env. rewrite Hsel. by destruct (fs !! ".env").
  - rewrite copy_env_files, Hsel. unfold cp.
    rewrite touch_lookup_ne by (symmetry; by eapply env_file_of_not_env).
    rewrite Hsrc. apply touch_lookup.
  - unfold copy_env. rewrite Hsel. by destruct (fs !! ".env").
Qed.

Lemma copy_env_reports_success_witness :
  status (copy_env ["prod"] ∅) = 0 /\
  files (copy_env ["prod"] ∅) !! ".env" = Some EmptyString.
Proof.
  destruct (copy_env_reports_success_without_source ["prod"] ∅ ".env.production"
              eq_refl (lookup_empty _)) as (H0 & Henv & _).
  split; [exact H0|]. by rewrite Henv, lookup_empty.
Defined.

(** X12.  The arguments the script takes are [prod], [preview] and [dev]: the
    words [production] and [development] of its own usage message are
    turned down like any other. *)
Theorem copy_env_accepts (args : list string) (fs : gmap string string) :
  (status (copy_env args fs) = 0 <->
     Sh.positional 0 args ∈ ["prod"; "preview"; "dev"]) /\
  status (copy_env ["production"] fs) = 1 /\
  status (copy_env ["development"] fs) = 1.
Proof.
  split; [|split].
  - unfold copy_env. set (arg := Sh.positional 0 args).
    destruct (env_file_of arg) as [src|] eqn:Hsel.
    + destruct (fs !! ".env"); simpl; (split; [intros _|done]).
      all: destruct (env_file_of_inv _ _ Hsel) as [[-> _]|[[-> _]|[-> _]]];
        set_solver.
    + destruct (fs !! ".env"); simpl; (split; [done|]).
      all: intros Hin; unfold env_file_of in Hsel;
        repeat (apply elem_of_cons in Hin as [->|Hin]; [done|]);
        by apply elem_of_nil in Hin.
  - unfold copy_env. by destruct (fs !! ".env").
  - unfold copy_env. by destruct (fs !! ".env").
Qed.

(** X13.  The parameter handling of the iOS script (its lines 8 to 41) exits
    exactly when the team identifier is missing, and then with status 1;
    its check of the environment can never fire.  In the variables it
    leaves when it does not exit, the scheme is the project, the
    environment is never [Production], and [ALLOW_EXPORT] is [true], the
    condition of step 5, only for an environment other than production
    whose third argument is [true].  Nothing is said of the steps after
    line 41, which can stop the run as well. *)
Theorem resolve_outcomes (args : list string) :
  (resolve args = inl 1 <-> Sh.positional 1 args = EmptyString) /\
  (forall status, resolve args = inl status -> status = 1%nat) /\
  (forall p, resolve args = inr p ->
     TEAM_ID p = Sh.positional 1 args /\
     TEAM_ID p <> EmptyString /\
     SCHEME_NAME p = PROJECT_NAME p /\
     ARCHIVE_PATH p = "./ios/build/" +:+ PROJECT_NAME p +:+ ".xcarchive" /\
     ENVIRONMENT p <> "Production" /\
     (prepares_export_options p = true <->
        Sh.positional_or 0 "Production" args <> "Production" /\
        Sh.positional 2 args = "true")).
Proof.
  destruct (decide (Sh.positional 1 args = EmptyString)) as [Hteam|Hteam].
  { rewrite resolve_without_team by done.
    split; [done|]. split; [by intros status [= <-]|done]. }
  destruct (decide (Sh.positional_or 0 "Production" args = "Production")) as [Henv|Henv].
  - rewrite resolve_production by done.
    split; [split; [done|by intros ?]|]. split; [done|].
    intros p [= <-]. simpl. do 5 (split; [done|]).
    split; [done|by intros [? _]].
  - rewrite resolve_other by done.
    split; [split; [done|by intros ?]|]. split; [done|].
    intros p [= <-]. simpl. do 5 (split; [done|]).
    unfold prepares_export_options, Sh.positional_or. simpl. split.
    + destruct (String.eqb_spec (Sh.positional 2 args) EmptyString) as [->|_]; [done|].
      by intros ->%String.eqb_eq.
    + intros [_ Harg]. by rewrite Harg.
Qed.

End BuildScriptsMore.

(** ** More on the Expo configuration *)
Module AppConfigMore.
Import BuildConfig AppConfig BuildConfigSpec JsStringSpec.

Lemma assoc_last_None k fields :
  k ∉ fields.*1 -> Js.assoc_last k fields = None.
Proof.
  induction fields as [|[k' v] fields IH]; [done|]. simpl.
  intros Hnot. apply not_elem_of_cons in Hnot as [Hne Hnot].
  rewrite IH by done. by rewrite (eqb_false_of_ne k k').
Qed.

Lemma assoc_last_Some k fields :
  k ∈ fields.*1 -> is_Some (Js.assoc_last k fields).
Proof.
  induction fields as [|[k' v] fields IH]; simpl.
  - by intros ?%elem_of_nil.
  - intros [->|Hin]%elem_of_cons.
    + destruct (Js.assoc_last k' fields); [done|]. by rewrite String.eqb_refl.
    + destruct (IH Hin) as [v' ->]. done.
Qed.

(** X14.  For an incoming configuration that is an object, [defineConfig]
    hands on every property that it does not write itself, and for the
    fifteen it writes the incoming configuration counts for nothing: an
    [ios] or [android] object of the caller is replaced whole, not
    merged. *)
Theorem defineConfig_frame (NODE_ENV : option string)
    (fields : list (string * Js.value)) (k : string) :
  (k ∉ JsPath.writtenKeys ->
     Js.get k (defineConfig NODE_ENV (Js.Obj fields)) = Js.get k (Js.Obj fields)) /\
  (k ∈ JsPath.writtenKeys ->
     Js.get k (defineConfig NODE_ENV (Js.Obj fields))
     = Js.get k (defineConfig NODE_ENV (Js.Obj []))).
Proof.
  unfold defineConfig. cbn [Js.get Js.spread]. split; intros Hk.
  - by rewrite assoc_last_app, assoc_last_None.
  - rewrite !assoc_last_app.
    match goal with
    | |- context [Js.assoc_last k ?fields] =>
        destruct (assoc_last_Some k fields Hk) as [v ->]
    end.
    done.
Qed.

Lemma defineConfig_frame_witness :
  Js.get "owner" (defineConfig None (Js.Obj [("owner", Js.Str "simform")]))
    = Js.Str "simform" /\
  Js.get "buildNumber"
    (Js.get "ios" (defineConfig None
       (Js.Obj [("ios", Js.Obj [("buildNumber", Js.Str "42")])])))
    = Js.Undefined.
Proof.
  split.
  - rewrite (proj1 (defineConfig_frame None [("owner", Js.Str "simform")] "owner"));
      [done|].
    unfold JsPath.writtenKeys. intros Hin.
    repeat (apply elem_of_cons in Hin as [Hin|Hin]; [discriminate|]).
    by apply elem_of_nil in Hin.
  - rewrite (proj2 (defineConfig_frame None
                      [("ios", Js.Obj [("buildNumber", Js.Str "42")])] "ios"));
      [done|].
    unfold JsPath.writtenKeys. do 9 apply list_elem_of_further. apply list_elem_of_here.
Defined.

(** X15.  One identifier goes to all three places: the iOS bundle identifier,
    the Android package, and the ProGuard rule that keeps the
    [BuildConfig] class of that package; it is one of the three
    identifiers of [getEnvironmentConfig], whatever [NODE_ENV] holds. *)
Theorem defineConfig_one_identifier (NODE_ENV : option string) (config : Js.value) :
  let result := defineConfig NODE_ENV config in
  exists id,
    id ∈ ["com.simform.withinstruction.dev"; "com.simform.withinstruction.preview";
          "com.simform.withinstruction"] /\
    Js.get "bundleIdentifier" (Js.get "ios" result) = Js.Str id /\
    Js.get "package" (Js.get "android" result) = Js.Str id /\
    (exists rules before,
       Js.get "extraProguardRules"
         (Js.get "android"
            (JsPath.at_index 1 (JsPath.at_index 4 (Js.get "plugins" result))))
       = Js.Str rules /\
       rules = before +:+ "-keep class " +:+ id +:+ ".BuildConfig { *; }").
Proof.
  intros result. subst result.
  exists (bundleIdentifier (getEnvironmentConfig NODE_ENV)).
  split; [|split; [apply defineConfig_ios|split; [apply defineConfig_android|]]].
  - unfold getEnvironmentConfig. destruct NODE_ENV as [env|]; [|set_solver].
    destruct (String.eqb env "development"); [set_solver|].
    destruct (String.eqb env "preview"); set_solver.
  - exists (defineProGuardRules (bundleIdentifier (getEnvironmentConfig NODE_ENV))).
    exists (String.substring 0 (String.length proGuardRulesHead - 12) proGuardRulesHead).
    split.
    + unfold defineConfig. cbn [Js.get]. by rewrite assoc_last_app.
    + unfold defineProGuardRules.
      rewrite <- (app_assoc _ "-keep class "). reflexivity.
Qed.

End AppConfigMore.

(** ** More on the thunk *)
Module ThunkMore.
Import Axios Apisauce Effects SentryConfig APIConfig ThunkInvariant CaptureInvariant.

Lemma lower_idempotent (c : ascii) : lower (lower c) = lower c.
Proof. destruct c as [[] [] [] [] [] [] [] []]; reflexivity. Qed.

Lemma toLowerCase_idempotent (s : string) : toLowerCase (toLowerCase s) = toLowerCase s.
Proof.
  induction s as [|c s IH]; [done|]. simpl. by rewrite lower_idempotent, IH.
Qed.

Section Thunk.
Context {R : Type} `{!ResponseBound R}.
Context {ErrorResponse : Type}.
Variable AppEnv : AppEnvConst.t.
Variable APIError : Strings.APIError.
Variable getErrorResponse : string -> ErrorResponse.
Variable formatString : string -> Dict -> string.
Variable USER_CANCELLED_REQUEST : string.

Local Abbreviation begin := (payloadCreator_begin AppEnv APIError getErrorResponse formatString
                     USER_CANCELLED_REQUEST).
Local Abbreviation resume := (payloadCreator_resume AppEnv APIError getErrorResponse
                      USER_CANCELLED_REQUEST).
Local Abbreviation step := (APIConfig.step AppEnv APIError getErrorResponse formatString
                    USER_CANCELLED_REQUEST).
Local Abbreviation execute := (APIConfig.execute AppEnv APIError getErrorResponse formatString
                       USER_CANCELLED_REQUEST).
Local Abbreviation capture := (sentryCaptureAPIException AppEnv APIError).
Local Abbreviation hooked := (ThunkInvariant.hooked (R := R) USER_CANCELLED_REQUEST).
Local Abbreviation requestOf := (ThunkInvariant.requestOf formatString).
Local Abbreviation capture_inv :=
  (CaptureInvariant.capture_inv (R := R) (ErrorResponse := ErrorResponse) AppEnv).
Local Abbreviation bounded := (CaptureInvariant.bounded (R := R) AppEnv).

(** *** The method, in any case *)

Lemma apiWithCancelToken_lower api method url params data setting paths source :
  apiWithCancelToken (R := R) formatString api (toLowerCase method) url
    params data setting paths source
  = apiWithCancelToken formatString api method url params data setting paths source.
Proof. unfold apiWithCancelToken. by rewrite toLowerCase_idempotent. Qed.

(** X16.  A thunk behaves the same for a method name in upper, lower or mixed
    case: every execution of it is the execution of the thunk with the
    lower-case name. *)
Theorem method_case_insensitive (t : AsyncThunk) (x : Execution) (events : list Event) :
  execute t x events
  = execute {| typePrefix := typePrefix t;
               thunkMethod := toLowerCase (thunkMethod t);
               thunkUrl := thunkUrl t;
               thunkApi := thunkApi t |} x events.
Proof.
  revert x. induction events as [|e events IH]; intros x; [done|].
  rewrite !(ThunkSpec.execute_cons AppEnv APIError getErrorResponse formatString
              USER_CANCELLED_REQUEST).
  rewrite <- IH. f_equal.
  unfold APIConfig.step. simpl. destruct e as [payload| |settled]; [|done|done].
  destruct (phase x); [|done|done].
  unfold payloadCreator_begin, mbind, M_bind, bind, try_catch. simpl.
  by rewrite apiWithCancelToken_lower.
Qed.

(** *** What of the payload reaches the request *)

(** X17.  For [post], [put] and [patch] the parameters of the payload do not
    reach the request, and for every other method its data do not: two
    payloads that differ only there start the same execution. *)
Theorem payload_part_ignored (t : AsyncThunk) (x : Execution) (a b : ThunkArg) :
  same_for_method (thunkMethod t) a b ->
  step t x (Start (Some a)) = step t x (Start (Some b)).
Proof.
  intros (Hsetting & Hpaths & Htoast & Hpart).
  unfold APIConfig.step. destruct (phase x); [|done|done].
  unfold payloadCreator_begin. simpl. rewrite Htoast.
  assert (apiWithCancelToken (R := R) formatString (thunkApi t) (thunkMethod t) (thunkUrl t)
            (params a) (data a) (setting a) (paths a)
          = apiWithCancelToken formatString (thunkApi t) (thunkMethod t) (thunkUrl t)
              (params b) (data b) (setting b) (paths b)) as Hcall.
  { unfold apiWithCancelToken, requestSettings. rewrite Hsetting, Hpaths.
    destruct (bool_decide (toLowerCase (thunkMethod t) ∈ ["post"; "put"; "patch"]));
      simpl; by rewrite Hpart. }
  unfold mbind, M_bind, bind, try_catch. simpl. by rewrite Hcall.
Qed.

(** *** What an execution captures *)

Lemma cancel_logs source reason (w : World R) :
  captureAPICalls (cancel source reason w) = captureAPICalls w /\
  sentry (cancel source reason w) = sentry w.
Proof. unfold cancel. by destruct (cancelReasons w !! token source). Qed.

Lemma fireAbort_logs (w : World R) :
  captureAPICalls (fireAbort w) = captureAPICalls w /\
  sentry (fireAbort w) = sentry w.
Proof.
  unfold fireAbort. generalize (abortListeners w) as ls. intros ls. revert w.
  induction ls as [|l ls IH]; intros w; [done|]. simpl.
  destruct (IH (cancel (cancels l) (reason l) w)) as [-> ->].
  apply cancel_logs.
Qed.

Lemma quiet_bounded (w : World R) : quiet w -> bounded w.
Proof. intros [Hc Hs]. unfold CaptureInvariant.bounded. rewrite Hc, Hs. simpl. by repeat split; try lia. Qed.

Lemma capture_bounded endpoint response error (w : World R) :
  quiet w -> bounded (capture endpoint response error w).2.
Proof.
  intros [Hc Hs].
  destruct (CrashReportingSpec.sentryCaptureAPIException_captured AppEnv APIError
              endpoint response error w) as (Hc' & Hs' & _).
  unfold CaptureInvariant.bounded. rewrite Hc', Hs', Hc, Hs.
  destruct (AppEnvConst.isDevelopment AppEnv); simpl; repeat split; try lia; done.
Qed.

Lemma capture_inv_step t x e : capture_inv x -> capture_inv (step t x e).
Proof.
  intros Hinv. destruct e as [payload| |settled].
  - destruct (phase x) eqn:Hphase.
    + unfold CaptureInvariant.capture_inv in Hinv. rewrite Hphase in Hinv.
      destruct (decide (supported t)) as [Hsup|Hsup].
      * rewrite (ThunkSpec.step_start_supported AppEnv APIError getErrorResponse
                   formatString USER_CANCELLED_REQUEST) by done.
        by unfold CaptureInvariant.capture_inv.
      * rewrite (ThunkSpec.step_start_unsupported AppEnv APIError getErrorResponse
                   formatString USER_CANCELLED_REQUEST) by done.
        unfold CaptureInvariant.capture_inv. simpl. by apply capture_bounded.
    + rewrite (ThunkSpec.step_ignored_start AppEnv APIError getErrorResponse
                 formatString USER_CANCELLED_REQUEST); [done|by rewrite Hphase].
    + rewrite (ThunkSpec.step_ignored_start AppEnv APIError getErrorResponse
                 formatString USER_CANCELLED_REQUEST); [done|by rewrite Hphase].
  - rewrite (ThunkSpec.step_abort AppEnv APIError getErrorResponse
               formatString USER_CANCELLED_REQUEST).
    unfold CaptureInvariant.capture_inv, quiet, CaptureInvariant.bounded in *. simpl.
    destruct (fireAbort_logs (world x)) as [-> ->]. done.
  - destruct (phase x) as [|toast|outcome] eqn:Hphase.
    + rewrite (ThunkSpec.step_ignored_settle AppEnv APIError getErrorResponse
                 formatString USER_CANCELLED_REQUEST); [done|by rewrite Hphase].
    + unfold CaptureInvariant.capture_inv in Hinv. rewrite Hphase in Hinv.
      destruct (ThunkSpec.step_settle AppEnv APIError getErrorResponse formatString
                  USER_CANCELLED_REQUEST t x toast settled Hphase)
        as (result & Hrun & Hdone & _).
      unfold CaptureInvariant.capture_inv. rewrite Hdone.
      remember (world (step t x (Settle settled))) as w' eqn:Hw'. clear Hw' Hdone.
      destruct settled as [response|error].
      * destruct (ok response) eqn:Hok.
        -- rewrite CrashReportingSpec.resume_ok_response in Hrun by done.
           by injection Hrun as <- <-.
        -- rewrite CrashReportingSpec.resume_failed_response in Hrun by done.
           injection Hrun as <- <-.
           destruct (decide (message <$> originalError response
                             = Some USER_CANCELLED_REQUEST)).
           ++ rewrite CrashReportingSpec.processResponse_cancelled by done.
              by apply quiet_bounded.
           ++ rewrite CrashReportingSpec.processResponse_other by done.
              by apply capture_bounded.
      * rewrite CrashReportingSpec.resume_thrown in Hrun.
        injection Hrun as <- <-. by apply capture_bounded.
    + rewrite (ThunkSpec.step_ignored_settle AppEnv APIError getErrorResponse
                 formatString USER_CANCELLED_REQUEST); [done|by rewrite Hphase].
Qed.

Lemma capture_inv_execute t x events : capture_inv x -> capture_inv (execute t x events).
Proof.
  revert x. induction events as [|e events IH]; intros x Hinv; [done|].
  rewrite (ThunkSpec.execute_cons AppEnv APIError getErrorResponse formatString
             USER_CANCELLED_REQUEST).
  apply IH. by apply capture_inv_step.
Qed.

Lemma capture_inv_bounded x : capture_inv x -> bounded (world x).
Proof.
  unfold CaptureInvariant.capture_inv.
  destruct (phase x) as [| |[[v|e]|e]]; try done; apply quiet_bounded.
Qed.

(** X18.  An execution passes at most one failure to
    [sentryCaptureAPIException], and Sentry gets at most that one; while
    the request is in flight, and when the thunk is fulfilled, nothing
    has been captured at all. *)
Theorem captures_bounded (t : AsyncThunk) (events : list Event) :
  let x := execute t fresh events in
  length (captureAPICalls (world x)) <= 1 /\
  length (sentry (world x)) <= length (captureAPICalls (world x)) /\
  (forall toast, phase x = InFlight toast ->
     captureAPICalls (world x) = [] /\ sentry (world x) = []) /\
  (forall value, phase x = Done (Returns (Fulfilled value)) ->
     captureAPICalls (world x) = [] /\ sentry (world x) = []).
Proof.
  intros x.
  assert (capture_inv x) as Hinv by (by apply capture_inv_execute).
  destruct (capture_inv_bounded x Hinv) as (Hc & Hs & _).
  split; [done|]. split; [done|].
  unfold CaptureInvariant.capture_inv in Hinv.
  split; [intros toast Hphase|intros value Hphase]; by rewrite Hphase in Hinv.
Qed.

(** X19.  In development mode no execution of a thunk hands anything to
    Sentry, however it is started, aborted and settled. *)
Theorem development_never_reaches_sentry (t : AsyncThunk) (events : list Event) :
  AppEnvConst.isDevelopment AppEnv = true ->
  sentry (world (execute t fresh events)) = [].
Proof.
  intros Hdev.
  assert (capture_inv (execute t fresh events)) as Hinv by (by apply capture_inv_execute).
  destruct (capture_inv_bounded _ Hinv) as (_ & _ & Hquiet). by apply Hquiet.
Qed.

(** *** Two ordinary runs *)

(** X20.  A run of the payload creator whose signal is aborted while the
    request is in flight, and whose promise then gives the cancel error
    of its token: the abort has cancelled the token with the reason, the
    payload creator has made its one call of the request function, it
    returns [rejectWithValue] of [handleError] of that response, and
    nothing is captured.  What the dispatched thunk reports after the
    abort is the toolkit's and is not stated. *)
Theorem aborted_run_captures_nothing (t : AsyncThunk) (payload : option ThunkArg)
    (response : ApiResponse R) :
  toLowerCase (thunkMethod t) ∈ verbs (thunkApi t) ->
  ok response = false ->
  message <$> originalError response = Some USER_CANCELLED_REQUEST ->
  let x := execute t fresh [Start payload; Abort; Settle (Resolves response)] in
  (exists toast,
     phase x = Done (Returns (Rejected
                 (handleError APIError getErrorResponse response toast)))) /\
  cancelReasons (world x) !! 0%nat = Some USER_CANCELLED_REQUEST /\
  length (requests (world x)) = 1 /\
  captureAPICalls (world x) = [] /\
  sentry (world x) = [].
Proof.
  intros Hsup Hok Hmsg x. subst x.
  unfold APIConfig.execute. cbn [foldl].
  rewrite (ThunkSpec.step_start_supported AppEnv APIError getErrorResponse
             formatString USER_CANCELLED_REQUEST) by done.
  rewrite (ThunkSpec.step_abort AppEnv APIError getErrorResponse
             formatString USER_CANCELLED_REQUEST).
  simpl. unfold APIConfig.step. simpl.
  rewrite CrashReportingSpec.resume_failed_response by done.
  rewrite CrashReportingSpec.processResponse_cancelled by done.
  simpl. split; [by eexists|]. split; [|done].
  unfold fireAbort. simpl. unfold cancel. simpl.
  rewrite lookup_empty. simpl. apply lookup_insert_eq.
Qed.

(** X21.  A request that settles with an ok response: the thunk is fulfilled
    with the data of the response after exactly one request, which went
    out under the lower-case method with the token of the source; no
    token was cancelled and nothing was captured. *)
Theorem successful_run_fulfils (t : AsyncThunk) (payload : option ThunkArg)
    (response : ApiResponse R) :
  toLowerCase (thunkMethod t) ∈ verbs (thunkApi t) ->
  ok response = true ->
  let x := execute t fresh [Start payload; Settle (Resolves response)] in
  phase x = Done (Returns (Fulfilled (Apisauce.data response))) /\
  (exists request,
     requests (world x) = [request] /\
     verb request = toLowerCase (thunkMethod t) /\
     cancelToken (settings request) = Some 0%nat) /\
  cancelReasons (world x) = ∅ /\
  captureAPICalls (world x) = [] /\
  sentry (world x) = [].
Proof.
  intros Hsup Hok x. subst x.
  unfold APIConfig.execute. cbn [foldl].
  rewrite (ThunkSpec.step_start_supported AppEnv APIError getErrorResponse
             formatString USER_CANCELLED_REQUEST) by done.
  unfold APIConfig.step. simpl.
  rewrite CrashReportingSpec.resume_ok_response by done. simpl.
  split; [done|]. split; [|done]. by eexists.
Qed.

End Thunk.

Local Abbreviation run :=
  (APIConfig.execute (R := UserResponse) Samples.production Samples.APIError
     Samples.getErrorResponse Samples.formatString Samples.USER_CANCELLED_REQUEST).
Local Abbreviation signIn :=
  (createAsyncThunkWithCancelToken Samples.production "auth/signIn" "POST" "/signin" None).

Lemma payload_part_ignored_witness :
  run signIn fresh [Start (Some MoreSamples.credentials)]
  = run signIn fresh [Start (Some MoreSamples.credentialsWithParams)].
Proof.
  apply (payload_part_ignored (R := UserResponse) Samples.production Samples.APIError
           Samples.getErrorResponse Samples.formatString Samples.USER_CANCELLED_REQUEST
           signIn fresh MoreSamples.credentials MoreSamples.credentialsWithParams).
  repeat split.
Defined.

Lemma development_never_reaches_sentry_witness :
  sentry (world (APIConfig.execute (R := UserResponse) Samples.development Samples.APIError
                   Samples.getErrorResponse Samples.formatString
                   Samples.USER_CANCELLED_REQUEST signIn fresh
                   [Start None; Settle (RejectsWith (IsString "boom"))])) = [].
Proof.
  apply (development_never_reaches_sentry (R := UserResponse) Samples.development
           Samples.APIError Samples.getErrorResponse Samples.formatString
           Samples.USER_CANCELLED_REQUEST signIn).
  reflexivity.
Defined.

Lemma aborted_run_captures_nothing_witness :
  captureAPICalls
    (world (run signIn fresh [Start None; Abort; Settle (Resolves Samples.userCancelled)]))
  = [].
Proof.
  apply (aborted_run_captures_nothing (R := UserResponse) Samples.production Samples.APIError
           Samples.getErrorResponse Samples.formatString Samples.USER_CANCELLED_REQUEST
           signIn None Samples.userCancelled).
  - vm_compute. do 3 apply list_elem_of_further. apply list_elem_of_here.
  - reflexivity.
  - reflexivity.
Defined.

Lemma successful_run_fulfils_witness :
  phase (run signIn fresh [Start None; Settle (Resolves MoreSamples.signedIn)])
  = Done (Returns (Fulfilled (Apisauce.data MoreSamples.signedIn))).
Proof.
  apply (successful_run_fulfils (R := UserResponse) Samples.production Samples.APIError
           Samples.getErrorResponse Samples.formatString Samples.USER_CANCELLED_REQUEST
           signIn None MoreSamples.signedIn).
  - vm_compute. do 3 apply list_elem_of_further. apply list_elem_of_here.
  - reflexivity.
Defined.

End ThunkMore.
